(** * Hazard filtering and probability aggregation of the OpenQuake engine

    A shallow embedding of [openquake/hazardlib/calc/filters.py] and of the
    hazard-curve utilities of [openquake/commonlib/calc.py], with the
    properties their specification states.

    Conventions of the embedding.
    - Python exceptions are values of [exn]; a computation that may raise
      returns a [result].  A generator is run to exhaustion and returns the
      list of the values it yielded together with the exception that stopped
      it, if any.
    - Magnitudes, distances and coordinates are rationals ([Q]): every finite
      binary64 value is one, comparisons on them are exact, and the linear
      arithmetic of the interpolants is taken without rounding.
    - Probabilities and intensity levels, which go through [numpy.log] and
      [numpy.exp], are real numbers ([R]): binary64 arithmetic is idealised.
    - A Python [dict] keyed by strings is a [gmap string _]. *)

From Stdlib Require Import ZArith QArith Qround Reals Psatz Sorted.
From stdpp Require Import base option gmap strings list pretty.

Set Default Proof Using "Type".
Open Scope string_scope.

(** ** Exceptions *)

(** The exception classes this code raises or lets through.  [Other] stands
    for any further subclass of [Exception]; [KeyboardInterrupt] is the
    example of a [BaseException] that [except Exception] does not catch. *)
Inductive etype : Type :=
  | KeyError
  | ValueError
  | TypeError
  | AttributeError
  | IndexError
  | ZeroDivisionError
  | KeyboardInterrupt
  | Other (name : string).


(** An exception in flight: [sys.exc_info()] is this triple. *)
Record exn : Type := Exn {
  exc_type : etype;
  exc_msg : string;      (* str(err) *)
  exc_tb : list string   (* the traceback, innermost frame last *)
}.

Inductive result (A : Type) : Type :=
  | Ok (a : A)
  | Raise (e : exn).
Arguments Ok {A} a.
Arguments Raise {A} e.

Definition bind {A B : Type} (r : result A) (k : A -> result B) : result B :=
  match r with
  | Ok a => k a
  | Raise e => Raise e
  end.

Notation "x <-- r ;; k" := (bind r (fun x => k))
  (at level 100, r at next level, right associativity).

Definition is_Ok {A : Type} (r : result A) : bool :=
  match r with Ok _ => true | Raise _ => false end.

(** ** [filters.py]: module constants and helpers *)

(** [MAX_DISTANCE = 2000  # km, ultra big distance used if there is no filter] *)
Definition MAX_DISTANCE : Q := 2000.



(** [getdefault(dic_with_default, key)] *)
Definition getdefault {V : Type} (dic_with_default : gmap string V)
    (key : string) : result V :=
  match dic_with_default !! key with
  | Some v => Ok v
  | None =>
      match dic_with_default !! "default" with
      | Some v => Ok v
      | None => Raise (Exn KeyError "'default'" ["getdefault"])
      end
  end.

(** ** Rational helpers *)

Definition Qltb (a b : Q) : bool := negb (Qle_bool b a).

(** [numpy.searchsorted(x, v)] (side left) on an ascending array: the
    position of the first element that is not below [v]. *)
Fixpoint searchsorted (x : list Q) (v : Q) : nat :=
  match x with
  | [] => O
  | a :: x' => if Qltb a v then S (searchsorted x' v) else O
  end.

(** [numpy.clip] on an index *)
Definition clip (i lo hi : nat) : nat := Nat.min (Nat.max i lo) hi.

(** ** [scipy.interpolate.interp1d]

    The library is outside the repository; this is its linear interpolant as
    documented, with [bounds_error=False] and a pair of fill values: below
    the first abscissa the first fill value, above the last one the second,
    and in between the line through the two neighbouring points.  The
    constructor refuses fewer than two points and arrays of different
    lengths.  The abscissas are taken as given: the properties below are
    about strictly ascending ones, which the library leaves in place and for
    which no slope divides by zero. *)
Module interp1d.

Record t : Type := Make {
  x : list Q;
  y : list Q;
  fill_value : Q * Q
}.

Definition __init__ (xs ys : list Q) (fill : Q * Q) : result t :=
  if negb (length xs =? length ys)%nat then
    Raise (Exn ValueError
             "x and y arrays must be equal in length along interpolation axis."
             ["interp1d.__init__"])
  else if (length xs <? 2)%nat then
    Raise (Exn ValueError "x and y arrays must have at least 2 entries"
             ["interp1d.__init__"])
  else Ok (Make xs ys fill).

Definition __call__ (self : t) (x_new : Q) : Q :=
  let n := length (x self) in
  if Qltb x_new (nth 0 (x self) 0%Q) then fst (fill_value self)
  else if Qltb (nth (n - 1) (x self) 0%Q) x_new then snd (fill_value self)
  else
    let hi := clip (searchsorted (x self) x_new) 1 (n - 1) in
    let lo := (hi - 1)%nat in
    let x_lo := nth lo (x self) 0%Q in
    let x_hi := nth hi (x self) 0%Q in
    let y_lo := nth lo (y self) 0%Q in
    let y_hi := nth hi (y self) 0%Q in
    let slope := ((y_hi - y_lo) / (x_hi - x_lo))%Q in
    (slope * (x_new - x_lo) + y_lo)%Q.

End interp1d.

(** [range(len(x))] as rationals *)
Definition range_Q (n : nat) : list Q := map (fun i => inject_Z (Z.of_nat i)) (seq 0 n).

(** ** [class Piecewise] *)
Module Piecewise.

Record t : Type := Make {
  y : list Q;
  piecewise : interp1d.t
}.

Definition __init__ (xs ys : list Q) : result t :=
  f <-- interp1d.__init__ xs (range_Q (length xs))
          (0%Q, inject_Z (Z.of_nat (length xs) - 1)) ;;
  Ok (Make ys f).

(** [self.y[idx]] on a numpy array: a negative index counts from the end,
    an index out of range raises. *)
Definition getitem (a : list Q) (idx : Z) : result Q :=
  let n := Z.of_nat (length a) in
  let i := if (idx <? 0)%Z then (idx + n)%Z else idx in
  if ((i <? 0) || (n <=? i))%Z then
    Raise (Exn IndexError "index out of bounds" ["Piecewise.__call__"])
  else
    match a !! Z.to_nat i with
    | Some v => Ok v
    | None => Raise (Exn IndexError "index out of bounds" ["Piecewise.__call__"])
    end.

Definition __call__ (self : t) (x : Q) : result Q :=
  let idx := Qceiling (interp1d.__call__ (piecewise self) x) in
  getitem (y self) idx.

End Piecewise.

(** A bounding box [(min_lon, min_lat, max_lon, max_lat)]. *)
Definition bbox : Type := (Q * Q * Q * Q)%type.

(** The constant [KM_TO_DEGREES] and the function [angular_distance(km, lat)]
    of [openquake.hazardlib.geo.utils], which is not among the sources, are
    parameters. *)
Class GeoUtils : Type := {
  KM_TO_DEGREES : Q;
  angular_distance : Q -> Q -> Q
}.

(** ** [class IntegrationDistance] *)
Module IntegrationDistance.

(** What the configuration holds for a tectonic region type: a number or a
    list of (magnitude, distance) pairs. *)
Inductive raw : Type :=
  | RawNum (v : Q)
  | RawList (pairs : list (Q * Q)).

(** The entries of [self.dic] after construction. *)
Inductive value : Type :=
  | VFloat (d : Q)
  | VList (pairs : list (Q * Q)).

Record t : Type := Make {
  dic : gmap string value;             (* TRT -> float or list of pairs *)
  magdist : gmap string (list (Q * Q));(* TRT -> list of pairs *)
  piecewise : option (gmap string Piecewise.t)
    (* the function cache; [None] while the attribute does not exist *)
}.

Definition to_value (v : raw) : value :=
  match v with
  | RawList l => VList l
  | RawNum q => VFloat q   (* float(value) *)
  end.

Definition to_magdist (v : raw) : option (list (Q * Q)) :=
  match v with
  | RawList l => Some l
  | RawNum _ => None
  end.

(** [__init__(self, dic)]: the loop keeps every list in [magdist] and
    converts every other value with [float].  Nothing else is looked at; in
    particular nothing looks for the ['default'] key. *)
Definition __init__ (d : gmap string raw) : t :=
  Make (to_value <$> d) (omap to_magdist d) None.

(** [mags, dists = zip] of the unpacked pairs: a transposition that needs at
    least one pair. *)
Definition unzip_pairs (pairs : list (Q * Q)) : result (list Q * list Q) :=
  match pairs with
  | [] => Raise (Exn ValueError "not enough values to unpack (expected 2, got 0)"
                   ["IntegrationDistance.__call__"])
  | _ => Ok (map fst pairs, map snd pairs)
  end.

(** The control points the interpolant is built from:
    [if mags[-1] < 11] the point (11, [MAX_DISTANCE]) is appended,
    to use 2000 km for [mag > mags[-1]]. *)
Definition with_ceiling (mags dists : list Q) : list Q * list Q :=
  if Qltb (List.last mags 0%Q) 11 then
    ((mags ++ [11%Q])%list, (dists ++ [MAX_DISTANCE])%list)
  else (mags, dists).

(** The body of the [except KeyError] clause: build the interpolant. *)
Definition build (self_magdist : gmap string (list (Q * Q))) (trt : string)
  : result Piecewise.t :=
  pairs <-- getdefault self_magdist trt ;;
  md <-- unzip_pairs pairs ;;
  let '(mags, dists) := with_ceiling (fst md) (snd md) in
  Piecewise.__init__ mags dists.

(** [__call__(self, trt, mag=None)], returning the outcome and the object
    after the call (the cache is an attribute of [self]). *)
Definition __call__ (self : t) (trt : string) (mag : option Q)
  : result Q * t :=
  match getdefault (dic self) trt with
  | Raise e => (Raise e, self)
  | Ok (VFloat d) => (Ok d, self)
  | Ok (VList _) =>
      match mag with
      | None => (Ok MAX_DISTANCE, self)
      | Some m =>
          let cache := default ∅ (piecewise self) in
          match cache !! trt with
          | Some md =>
              (Piecewise.__call__ md m,
               Make (dic self) (magdist self) (Some cache))
          | None =>
              match build (magdist self) trt with
              | Raise e =>
                  (Raise e, Make (dic self) (magdist self) (Some cache))
              | Ok md =>
                  (Piecewise.__call__ md m,
                   Make (dic self) (magdist self) (Some (<[trt := md]> cache)))
              end
          end
      end
  end.

(** The value of a lookup as a function of the table alone, the cache left
    out: what [__call__] returns whatever lookups came before (lemma
    [call_distance]). *)
Definition distance (self : t) (trt : string) (mag : option Q) : result Q :=
  v <-- getdefault (dic self) trt ;;
  match v with
  | VFloat d => Ok d
  | VList _ =>
      match mag with
      | None => Ok MAX_DISTANCE
      | Some m => md <-- build (magdist self) trt ;; Piecewise.__call__ md m
      end
  end.

(** The cache holds, for a TRT, nothing but the interpolant built for it. *)
Definition cache_ok (self : t) : Prop :=
  forall trt md,
    default ∅ (piecewise self) !! trt = Some md ->
    build (magdist self) trt = Ok md.

(** The states of an object: as constructed, or after one more lookup. *)
Inductive after_calls (o0 : t) : t -> Prop :=
  | after_none : after_calls o0 o0
  | after_call o trt mag :
      after_calls o0 o -> after_calls o0 (snd (__call__ o trt mag)).

(** [__getstate__]: the state that is pickled, without [piecewise]. *)
Definition __getstate__ (self : t)
  : gmap string value * gmap string (list (Q * Q)) :=
  (dic self, magdist self).

(** What unpickling builds from a state: the class defines no
    [__setstate__], so the object gets the attributes of the state and no
    other; the cache does not exist until the next lookup. *)
Definition unpickle (state : gmap string value * gmap string (list (Q * Q)))
  : t :=
  Make (fst state) (snd state) None.

(** [__getitem__(self, trt)] is [self(trt)], a lookup without magnitude. *)
Definition __getitem__ (self : t) (trt : string) : result Q * t :=
  __call__ self trt None.

(** [__len__(self)] *)
Definition __len__ (self : t) : nat := size (dic self).

(** Python's [min(a, b)] and [max(a, b)] of two numbers: the first one
    unless the second is strictly smaller (greater). *)
Definition py_min (a b : Q) : Q := if Qltb b a then b else a.
Definition py_max (a b : Q) : Q := if Qltb a b then b else a.

(** [max(self(trt, mag) for trt in keys)]: the lookups are made in turn on
    the same object, the first that raises ends the computation, and no
    key at all is an error of [max]. *)
Fixpoint max_distance (self : t) (keys : list string) (mag : option Q)
    (best : option Q) : result Q * t :=
  match keys with
  | [] =>
      (match best with
       | Some d => Ok d
       | None => Raise (Exn ValueError "max() arg is an empty sequence"
                          ["IntegrationDistance.get_bounding_box"])
       end, self)
  | trt :: keys' =>
      let '(r, self') := __call__ self trt mag in
      match r with
      | Raise e => (Raise e, self')
      | Ok d =>
          max_distance self' keys' mag
            (Some (match best with Some b => py_max b d | None => d end))
      end
  end.

(** [get_bounding_box(self, lon, lat, trt=None, mag=None)].  The keys of
    [self.dic] are visited in the order of [map_to_list]; the order of the
    Python dictionary is not modelled. *)
Definition get_bounding_box `{GeoUtils} (self : t) (lon lat : Q)
    (trt : option string) (mag : option Q) : result bbox * t :=
  let '(r, self') :=
    match trt with
    | None => max_distance self (map fst (map_to_list (dic self))) mag None
    | Some trt => __call__ self trt mag
    end in
  (maxdist <-- r ;;
   let a1 := py_min (maxdist * KM_TO_DEGREES) 90 in
   let a2 := py_min (angular_distance maxdist lat) 180 in
   Ok (lon - a2, lat - a1, lon + a2, lat + a1)%Q,
   self').

End IntegrationDistance.

(** ** Sites, sources and geometry *)

Record Site : Type := MkSite {
  longitude : Q;
  latitude : Q
}.

(** The geometry of [openquake.hazardlib.geo.utils], which is not among the
    sources, is a parameter of the development: the type of source
    geometries, [get_bounding_box(src, maxdist)] (which can fail for tricky
    geometries), [fix_lon], and the test that a site lies inside a box. *)
Class Geometry : Type := {
  geom : Type;
  get_bounding_box : geom -> Q -> result bbox;
  fix_lon : Q -> Q;
  in_box : bbox -> Site -> bool
}.

(** A source object, with the attributes and methods this code reads.
    [indices] is [None] while the object has no attribute of that name. *)
Record Source `{Geometry} : Type := MkSource {
  source_id : string;
  tectonic_region_type : string;
  get_min_max_mag : Q * Q;
  geometry : geom;
  indices : option (list nat)
}.

Definition set_indices `{Geometry} (src : Source) (ix : list nat) : Source :=
  MkSource _ (source_id src) (tectonic_region_type src) (get_min_max_mag src)
           (geometry src) (Some ix).

(** ** [SiteCollection] *)
Module SiteCollection.

(** Modelled from the spec: the class [SiteCollection] of
    [openquake.hazardlib.site] is not among the sources.  A collection is an
    ordered set of sites with stable ids; a complete collection has the ids
    [0..N-1] and no [indices]; a filtered one carries the ids it keeps as
    indices into the complete collection. *)
Record t : Type := Make {
  complete : list Site;
  indices : option (list nat)
}.

(** Modelled from the spec: [len(sitecol)], the number of sites kept. *)
Definition len (s : t) : nat :=
  match indices s with
  | None => length (complete s)
  | Some ix => length ix
  end.

(** Modelled from the spec: the site ids of a collection, in order. *)
Definition sids (s : t) : list nat :=
  match indices s with
  | None => seq 0 (length (complete s))
  | Some ix => ix
  end.

(** Modelled from the spec: [filtered(indices)] is the complete collection
    restricted to that index set. *)
Definition filtered (s : t) (ix : list nat) : t :=
  Make (complete s) (Some ix).

(** Modelled from the spec: the sites of the collection, in order, which
    [zip(sitecol.lons, sitecol.lats)] enumerates. *)
Definition sites (s : t) : list Site :=
  omap (fun sid => complete s !! sid) (sids s).

Definition inside `{Geometry} (s : t) (box : bbox) (sid : nat) : bool :=
  match complete s !! sid with
  | Some p => in_box box p
  | None => false
  end.

(** Modelled from the spec: [within_bbox(bbox)] is the direct containment
    test, the sites of the collection inside the box, or [None] when there
    is none. *)
Definition within_bbox `{Geometry} (s : t) (box : bbox) : option t :=
  match List.filter (inside s box) (sids s) with
  | [] => None
  | ix => Some (filtered s ix)
  end.

(** ['%s' % sitecol]: the text is not in these sources; a rendering with
    the two lengths stands for it. *)
Definition __repr__ (s : t) : string :=
  "<SiteCollection with " ++ pretty (len s) ++ "/"
    ++ pretty (length (complete s)) ++ " sites>".

End SiteCollection.

(** [get_indices(sites)] *)
Definition get_indices (sites : SiteCollection.t) : list nat :=
  match SiteCollection.indices sites with
  | None => seq 0 (SiteCollection.len sites)
  | Some ix => ix
  end.

(** Modelled from the spec: [within(bbox, index)] of
    [openquake.hazardlib.geo.utils] queries the point index for the sites
    inside the box and returns their ordinals in ascending order. *)
Definition within `{Geometry} (box : bbox) (index : list (nat * Site)) : list nat :=
  map fst (List.filter (fun ip => in_box box (snd ip)) index).

(** ** The store of source objects and the calls observed

    The filter writes the attribute [indices] on the source objects it is
    given, so sources are held in a store and passed by reference.  The
    events record the calls whose absence the specification requires. *)
Inductive event : Type :=
  | EvAffectedBox (src : nat)         (* get_affected_box(src) was called *)
  | EvIndexQuery (box : bbox)         (* within(box, self.index) *)
  | EvWithinBbox (box : bbox).        (* sites.within_bbox(box) *)

Record world `{Geometry} : Type := MkWorld {
  objects : gmap nat Source;
  trace : list event
}.

Definition log `{Geometry} (ev : event) (w : world) : world :=
  MkWorld _ (objects w) (trace w ++ [ev]).

Definition store `{Geometry} (a : nat) (src : Source) (w : world) : world :=
  MkWorld _ (<[a := src]> (objects w)) (trace w).


(** What a generator has done when it stops: the values yielded, and the
    exception that ended it, if any. *)
Record gen (A : Type) : Type := MkGen {
  yielded : list A;
  stopped : option exn
}.
Arguments MkGen {A} yielded stopped.
Arguments yielded {A} g.
Arguments stopped {A} g.

Definition gen_cons {A : Type} (y : option A) (g : gen A) : gen A :=
  MkGen (option_list y ++ yielded g) (stopped g).

(** Appending what a later part of a generator does to what an earlier part
    did: the later part runs only if the earlier one was not stopped. *)
Definition gen_seq {A : Type} (g : gen A) (k : gen A) : gen A :=
  match stopped g with
  | Some e => g
  | None => MkGen (yielded g ++ yielded k) (stopped k)
  end.

(** ** [class SourceFilter] *)
Module SourceFilter.

(** The [integration_distance] argument: a dictionary, an
    [IntegrationDistance] object, or [None]. *)
Inductive distance_arg : Type :=
  | ADict (d : gmap string IntegrationDistance.raw)
  | AObject (o : IntegrationDistance.t)
  | ANone.

(** [bool(integration_distance)] *)
Definition truthy (a : distance_arg) : bool :=
  match a with
  | ADict d => negb (bool_decide (d = ∅))
  | AObject o => negb (bool_decide (IntegrationDistance.dic o = ∅))
  | ANone => false
  end.

Record t : Type := Make {
  integration_distance : option IntegrationDistance.t;
  sitecol : option SiteCollection.t;
  prefilter : string;
  index : option (list (nat * Site))
    (* the R-tree, [None] while the attribute does not exist *)
}.

Definition set_integration_distance (self : t) (o : IntegrationDistance.t) : t :=
  Make (Some o) (sitecol self) (prefilter self) (index self).

(** [enumerate(zip(sitecol.lons, sitecol.lats))] *)
Definition enumerate_sites (sc : SiteCollection.t) : list (nat * Site) :=
  let pts := SiteCollection.sites sc in
  combine (seq 0 (length pts)) pts.

(** [__init__(self, sitecol, integration_distance, prefilter='rtree')] *)
Definition __init__ (sc : option SiteCollection.t) (a : distance_arg)
    (pref : string) : result t :=
  let incomplete :=
    match sc with
    | Some s => (SiteCollection.len s <? length (SiteCollection.complete s))%nat
    | None => false
    end in
  if incomplete then
    Raise (Exn ValueError
             (from_option SiteCollection.__repr__ "None" sc ++ " is not complete!")
             ["SourceFilter.__init__"])
  else
    let idist := match a with
                 | ADict d => Some (IntegrationDistance.__init__ d)
                 | AObject o => Some o
                 | ANone => None
                 end in
    let pref' := if truthy a && bool_decide (is_Some sc) then pref else "no" in
    let idx := if String.eqb pref' "rtree"
               then enumerate_sites <$> sc else None in
    Ok (Make idist sc pref' idx).

Section methods.
Context `{Geometry}.

(** [get_affected_box(self, src)]; the call of the integration distance may
    fill its cache, so the filter after the call is returned too. *)
Definition get_affected_box (self : t) (src : Source) : result bbox * t :=
  let mag := snd (get_min_max_mag src) in
  match integration_distance self with
  | None =>
      (Raise (Exn TypeError "'NoneType' object is not callable"
                ["SourceFilter.get_affected_box"]), self)
  | Some o =>
      let '(r, o') :=
        IntegrationDistance.__call__ o (tectonic_region_type src) (Some mag) in
      (maxdist <-- r ;;
       b <-- get_bounding_box (geometry src) maxdist ;;
       let '(b0, b1, b2, b3) := b in
       Ok (fix_lon b0, b1, fix_lon b2, b3),
       set_integration_distance self o')
  end.

Definition no_attribute {A : Type} (attr : string) : result A :=
  Raise (Exn AttributeError
           ("'NoneType' object has no attribute '" ++ attr ++ "'")
           ["SourceFilter.__call__"]).

(** [sites.filtered(ix)] where [sites] may be [None] *)
Definition filtered_of (sites : option SiteCollection.t) (ix : list nat)
  : result SiteCollection.t :=
  match sites with
  | Some s => Ok (SiteCollection.filtered s ix)
  | None => no_attribute "filtered"
  end.

(** One turn of the loop of [__call__] for the source object at address [a]:
    what is yielded, if anything, or the exception raised; the filter and the
    world after the turn.  An address without an object has no counterpart in
    Python; the turn stops there with an error of its own. *)
Definition turn (self : t) (sites : option SiteCollection.t) (a : nat)
    (w : world)
  : result (option (nat * option SiteCollection.t)) * t * world :=
  match objects w !! a with
  | None =>
      (Raise (Exn (Other "ReferenceError") "no such object"
                ["SourceFilter.__call__"]), self, w)
  | Some src =>
      match indices src with
      | Some ix =>                                   (* already filtered *)
          (s <-- filtered_of sites ix ;; Ok (Some (a, Some s)), self, w)
      | None =>
          if String.eqb (prefilter self) "no" then    (* do not filter *)
            (Ok (Some (a, sites)), self, w)
          else if String.eqb (prefilter self) "rtree" then
            let '(rbox, self') := get_affected_box self src in
            let w1 := log (EvAffectedBox a) w in
            match rbox with
            | Raise e => (Raise e, self', w1)
            | Ok box =>
                match index self' with
                | None =>
                    (Raise (Exn AttributeError
                              "'SourceFilter' object has no attribute 'index'"
                              ["SourceFilter.__call__"]), self', w1)
                | Some idx =>
                    let w2 := log (EvIndexQuery box) w1 in
                    let ix := within box idx in
                    if (0 <? length ix)%nat then
                      let w3 := store a (set_indices src ix) w2 in
                      (s <-- filtered_of sites ix ;; Ok (Some (a, Some s)),
                       self', w3)
                    else (Ok None, self', w2)
                end
            end
          else if String.eqb (prefilter self) "numpy" then
            match sites with      (* [sites.within_bbox] is looked up first *)
            | None => (no_attribute "within_bbox", self, w)
            | Some s =>
                let '(rbox, self') := get_affected_box self src in
                let w1 := log (EvAffectedBox a) w in
                match rbox with
                | Raise e => (Raise e, self', w1)
                | Ok box =>
                    let w2 := log (EvWithinBbox box) w1 in
                    match SiteCollection.within_bbox s box with
                    | Some s_sites =>
                        let w3 :=
                          store a (set_indices src (get_indices s_sites)) w2 in
                        (Ok (Some (a, Some s_sites)), self', w3)
                    | None => (Ok None, self', w2)
                    end
                end
            end
          else (Ok None, self, w)
      end
  end.

(** The loop [for src in sources] of [__call__], run to its end. *)
Fixpoint loop (self : t) (sites : option SiteCollection.t) (sources : list nat)
    (w : world) : gen (nat * option SiteCollection.t) * t * world :=
  match sources with
  | [] => (MkGen [] None, self, w)
  | a :: rest =>
      let '(r, self1, w1) := turn self sites a w in
      match r with
      | Raise e => (MkGen [] (Some e), self1, w1)
      | Ok y =>
          let '(g, self2, w2) := loop self1 sites rest w1 in
          (gen_cons y g, self2, w2)
      end
  end.

(** [__call__(self, sources, sites=None)] *)
Definition __call__ (self : t) (sources : list nat)
    (sites : option SiteCollection.t) (w : world)
  : gen (nat * option SiteCollection.t) * t * world :=
  let sites := match sites with
               | None => sitecol self
               | Some s => Some s
               end in
  loop self sites sources w.




(** The loop of [get_bounding_boxes] over the sites. *)
Fixpoint bounding_boxes_of `{GeoUtils} (o : option IntegrationDistance.t)
    (pts : list Site) (trt : option string) (mag : option Q)
  : result (list bbox) * option IntegrationDistance.t :=
  match pts with
  | [] => (Ok [], o)
  | site :: pts' =>
      match o with
      | None =>
          (Raise (Exn AttributeError
                    "'NoneType' object has no attribute 'get_bounding_box'"
                    ["SourceFilter.get_bounding_boxes"]), o)
      | Some d =>
          let '(r, d') :=
            IntegrationDistance.get_bounding_box d
              (longitude site) (latitude site) trt mag in
          match r with
          | Raise e => (Raise e, Some d')
          | Ok bb =>
              let '(rs, o') := bounding_boxes_of (Some d') pts' trt mag in
              (bbs <-- rs ;; Ok (bb :: bbs), o')
          end
      end
  end.

(** [get_bounding_boxes(self, trt=None, mag=None)] *)
Definition get_bounding_boxes `{GeoUtils} (self : t) (trt : option string)
    (mag : option Q) : result (list bbox) * t :=
  match sitecol self with
  | None =>
      (Raise (Exn TypeError "'NoneType' object is not iterable"
                ["SourceFilter.get_bounding_boxes"]), self)
  | Some sc =>
      let '(r, o') :=
        bounding_boxes_of (integration_distance self)
          (SiteCollection.sites sc) trt mag in
      (r, Make o' (sitecol self) (prefilter self) (index self))
  end.

End methods.

(** [__getstate__]: what crosses a process boundary; the index is left out
    and ['rtree'] becomes ['numpy']. *)
Definition __getstate__ (self : t) : t :=
  let pref := if String.eqb (prefilter self) "rtree" then "numpy"
              else prefilter self in
  Make (integration_distance self) (sitecol self) pref None.

End SourceFilter.


(** [source_site_noop_filter = SourceFilter(None, {})] *)
Definition source_site_noop_filter : result SourceFilter.t :=
  SourceFilter.__init__ None (SourceFilter.ADict ∅) "rtree".

(** ** [calc.py]: the rupture pipeline *)

(** The methods of the source objects and the rupture filter that
    [gen_ruptures] calls are defined outside these sources; each may raise. *)
Class SourceMethods `{Geometry} : Type := {
  rupture : Type;
  filter_sites_by_distance_to_source :
    Source -> Q -> SiteCollection.t -> result (option SiteCollection.t);
  iter_ruptures : Source -> result (list rupture);
  filter_sites_by_distance_to_rupture :
    rupture -> Q -> SiteCollection.t -> result (option SiteCollection.t)
}.

Section pipeline.
Context `{SourceMethods}.

(** [SourceRuptureSites = namedtuple('SourceRuptureSites', 'source rupture sites')] *)
Record SourceRuptureSites : Type := MkSRS {
  srs_source : Source;
  srs_rupture : rupture;
  srs_sites : SiteCollection.t
}.

(** Modelled from the spec: [with mon: body] for a [Monitor] of
    [openquake.baselib], which is not among the sources.  The monitors are
    timing hooks that do not alter the semantics: the body keeps its value
    and its exception. *)
Definition with_monitor {A : Type} (name : string) (body : result A) : result A :=
  body.

(** The loop [for rupture in ruptures] of [gen_ruptures]. *)
Fixpoint gen_ruptures_of (src : Source) (s_sites : SiteCollection.t)
    (maximum_distance : Q) (ruptures : list rupture) : gen SourceRuptureSites :=
  match ruptures with
  | [] => MkGen [] None
  | rup :: rest =>
      match with_monitor "filtering ruptures"
              (filter_sites_by_distance_to_rupture rup maximum_distance s_sites) with
      | Raise e => MkGen [] (Some e)
      | Ok None => gen_ruptures_of src s_sites maximum_distance rest
      | Ok (Some r_sites) =>
          gen_cons (Some (MkSRS src rup r_sites))
                   (gen_ruptures_of src s_sites maximum_distance rest)
      end
  end.

(** [gen_ruptures(sources, site_coll, maximum_distance, monitor)] *)
Fixpoint gen_ruptures (sources : list Source) (site_coll : SiteCollection.t)
    (maximum_distance : Q) : gen SourceRuptureSites :=
  match sources with
  | [] => MkGen [] None
  | src :: rest =>
      match with_monitor "filtering sources"
              (filter_sites_by_distance_to_source src maximum_distance site_coll) with
      | Raise e => MkGen [] (Some e)
      | Ok None => gen_ruptures rest site_coll maximum_distance
      | Ok (Some s_sites) =>
          match with_monitor "generating ruptures" (iter_ruptures src) with
          | Raise e => MkGen [] (Some e)
          | Ok [] => gen_ruptures rest site_coll maximum_distance
          | Ok ruptures =>
              gen_seq (gen_ruptures_of src s_sites maximum_distance ruptures)
                      (gen_ruptures rest site_coll maximum_distance)
          end
      end
  end.

End pipeline.

(** ** [calc.py]: hazard maps and hazard curves *)

Open Scope R_scope.

(** [EPSILON = 1E-30], the cutoff value for the poe *)
Definition EPSILON : R := 1e-30.

(** [numpy.log] and [numpy.exp] on positive reals *)
Definition np_log : R -> R := ln.
Definition np_exp : R -> R := exp.

Fixpoint mapM {A B : Type} (f : A -> result B) (l : list A) : result (list B) :=
  match l with
  | [] => Ok []
  | a :: l' => b <-- f a ;; bs <-- mapM f l' ;; Ok (b :: bs)
  end.

(** The segment of [numpy.interp]: [p] is the sample point at or below [v]
    reached so far. *)
Fixpoint interp_segment (v : R) (p : R * R) (pts : list (R * R)) : R :=
  match pts with
  | [] => snd p
  | q :: pts' =>
      if Rlt_dec v (fst q) then
        (snd q - snd p) / (fst q - fst p) * (v - fst p) + snd p
      else interp_segment v q pts'
  end.

(** [numpy.interp(x, xp, fp)]: the piecewise linear interpolant through the
    points [(xp, fp)], for [xp] ascending, with [fp[0]] below [xp[0]] and
    [fp[-1]] above [xp[-1]].  The library is outside the repository. *)
Definition np_interp (v : R) (xp fp : list R) : result R :=
  if negb (length xp =? length fp)%nat then
    Raise (Exn ValueError "fp and xp are not of the same length."
             ["numpy.interp"])
  else
    match combine xp fp with
    | [] => Raise (Exn ValueError "array of sample points is empty"
                     ["numpy.interp"])
    | p :: pts =>
        if Rlt_dec v (fst p) then Ok (snd p)
        else Ok (interp_segment v p pts)
    end.

(** The [curves] argument: a 2D array or, for a single site, a 1D array. *)
Inductive curves_arg : Type :=
  | Curve1D (curve : list R)
  | Curves2D (curves : list (list R)).

(** The [poes] argument: an array-like or a scalar. *)
Inductive poes_arg : Type :=
  | PoeScalar (poe : R)
  | PoeArray (poes : list R).

(** [curves.reshape((1,) + curves.shape)] for a 1D array *)
Definition as_2d (c : curves_arg) : list (list R) :=
  match c with
  | Curve1D curve => [curve]
  | Curves2D curves => curves
  end.

(** [poes.reshape(1)] for a scalar *)
Definition as_1d (p : poes_arg) : list R :=
  match p with
  | PoeScalar poe => [poe]
  | PoeArray poes => poes
  end.

(** [[max(poe, EPSILON) for poe in curve[::-1]]] *)
Definition cutoff (curve : list R) : list R :=
  map (fun poe => Rmax poe EPSILON) (rev curve).

(** The body of the loop [for poe in poes]: one value of the map. *)
Definition hmap_value (imls_log curve_cutoff : list R) (poe : R) : result R :=
  match last curve_cutoff with
  | None => Raise (Exn IndexError "list index out of range"
                     ["compute_hazard_maps"])
  | Some greatest =>
      if Rgt_dec poe greatest then Ok 0
      else
        v <-- np_interp (np_log poe) (map np_log curve_cutoff) imls_log ;;
        Ok (np_exp v)
  end.

(** [compute_hazard_maps(curves, imls, poes)] *)
Definition compute_hazard_maps (curves : curves_arg) (imls : list R)
    (poes : poes_arg) : result (list (list R)) :=
  let curves := as_2d curves in
  let poes := as_1d poes in
  let imls := map np_log (rev imls) in
  mapM (fun curve =>
          let curve_cutoff := cutoff curve in
          mapM (hmap_value imls curve_cutoff) poes)
       curves.

(** [numpy.array(gmvs) >= imls] with [imls] reshaped to a column: one row of
    booleans per level. *)
Definition exceeding (gmvs imls : list R) : list (list bool) :=
  map (fun iml => map (fun gmv => if Rge_dec gmv iml then true else false) gmvs)
      imls.

(** [numpy.sum(_, axis=1)] of a boolean matrix *)
Definition sum_axis1 (m : list (list bool)) : list nat :=
  map (fun row => fold_right (fun (b : bool) n => ((if b then 1 else 0) + n)%nat) O row) m.

(** [_gmvs_to_haz_curve(gmvs, imls, invest_time, duration)] *)
Definition _gmvs_to_haz_curve (gmvs imls : list R) (invest_time duration : R)
  : result (list R) :=
  let num_exceeding := sum_axis1 (exceeding gmvs imls) in
  if Req_dec_T duration 0 then
    Raise (Exn ZeroDivisionError "float division by zero"
             ["_gmvs_to_haz_curve"])
  else
    Ok (map (fun n => 1 - np_exp (- (invest_time / duration) * INR n))
            num_exceeding).

(** The value the target probabilities are compared with,
    [curve_cutoff[-1]]: the clipped probability of the first level. *)
Definition greatest (curve : list R) : R := Rmax (hd 0 curve) EPSILON.

(** The maximum of a list of reals (0 for the empty list). *)
Definition maximum (l : list R) : R :=
  match l with
  | [] => 0
  | a :: l' => fold_right Rmax a l'
  end.

(** The specification's wording of one value of the map: 0 above the
    greatest probability of the curve, and below it the interpolation of the
    logarithm of the target against the logarithms of the clipped
    probabilities, mapped to the logarithms of the levels, exponentiated. *)
Definition level (curve imls : list R) (poe : R) : R :=
  if Rgt_dec poe (greatest curve) then 0
  else
    match np_interp (ln poe) (map ln (cutoff curve)) (map ln (rev imls)) with
    | Ok v => exp v
    | Raise _ => 0
    end.

(** The specification's wording of the count: the number of sampled
    ground-motion values greater than or equal to the level. *)
Definition num_ge (gmvs : list R) (iml : R) : nat :=
  length (List.filter (fun gmv => if Rge_dec gmv iml then true else false) gmvs).

Close Scope R_scope.

(** Magnitudes sorted ascending (strictly: the interpolant needs distinct
    abscissas) and distances non-decreasing, as checks on neighbours. *)
Fixpoint ascending (l : list Q) : bool :=
  match l with
  | a :: (b :: _) as l' => Qltb a b && ascending l'
  | _ => true
  end.


(** The index [Piecewise] reads: the number of control points below the
    magnitude, capped at the last position. *)
Definition index_of (xs : list Q) (m : Q) : nat :=
  Nat.min (length xs - 1) (searchsorted xs m).

(** A table in which a tectonic region type is missing and that has no
    ['default'] key. *)
Definition no_default_table : gmap string IntegrationDistance.raw :=
  {[ "Active Shallow Crust" := IntegrationDistance.RawNum 200 ]}.

(** ** [calc.py]: probability maps *)

(** A record of the ground-motion array of a site; of the fields of
    [gmv_dt] the code reads [imti] and [gmv]. *)
Record gmv_record : Type := MkGmv {
  rec_imti : nat;
  rec_gmv : R
}.

(** Modelled from the spec: [get_array(array, imti=imti)['gmv']] of
    [openquake.baselib.general], which is not among the sources, extracts
    the ground-motion samples of that measure type, in order. *)
Definition get_array_gmv (array : list gmv_record) (imti : nat) : list R :=
  map rec_gmv (List.filter (fun r => (rec_imti r =? imti)%nat) array).

(** [enumerate(imtls)] with the levels [imtls[imt]] of each type. *)
Definition enumerate_imtls (imtls : list (string * list R))
  : list (nat * list R) :=
  combine (seq 0 (length imtls)) (map snd imtls).

(** [numpy.concatenate(data)] of one-dimensional arrays: it needs at least
    one. *)
Definition np_concatenate (data : list (list R)) : result (list R) :=
  match data with
  | [] => Raise (Exn ValueError "need at least one array to concatenate"
                   ["numpy.concatenate"])
  | _ => Ok (concat data)
  end.

(** The body of the loop [for sid in gmvs_by_sid]: the curve of one site. *)
Definition poe_curve (array : list gmv_record) (imtls : list (string * list R))
    (invest_time duration : R) : result (list R) :=
  data <-- mapM (fun il => _gmvs_to_haz_curve (get_array_gmv array (fst il))
                             (snd il) invest_time duration)
                (enumerate_imtls imtls) ;;
  np_concatenate data.

(** [gmvs_to_poe_map(gmvs_by_sid, imtls, invest_time, duration)]: a
    [ProbabilityMap] is a dictionary from site id to [ProbabilityCurve],
    the curve an array of probabilities. *)
Definition gmvs_to_poe_map (gmvs_by_sid : gmap nat (list gmv_record))
    (imtls : list (string * list R)) (invest_time duration : R)
  : result (gmap nat (list R)) :=
  curves <-- mapM (fun kv => c <-- poe_curve (snd kv) imtls invest_time duration ;;
                             Ok (fst kv, c))
                  (map_to_list gmvs_by_sid) ;;
  Ok (list_to_map curves).

(** ** [calc.py]: [fix_minimum_intensity] *)

(** [numpy.float32] of a number, the rounding to single precision, is a
    parameter. *)
Class Float32 : Type := { F32 : Q -> Q }.

(** The loop [for imt in imts] of [fix_minimum_intensity], which writes into
    the dictionary as it goes.  [oqvalidation.getdefault] is not among the
    sources; the function of that name in [filters.py] stands for it, as the
    example of the docstring and the [except KeyError] clause require. *)
Fixpoint fill_minimum (min_iml : gmap string Q) (imts : list string)
  : result unit * gmap string Q :=
  match imts with
  | [] => (Ok tt, min_iml)
  | imt :: rest =>
      match getdefault min_iml imt with
      | Ok v => fill_minimum (<[imt := v]> min_iml) rest
      | Raise e =>
          match exc_type e with
          | KeyError =>
              (Raise (Exn ValueError
                        ("The parameter `minimum_intensity` in the job.ini "
                         ++ "file is missing the IMT '" ++ imt ++ "'")
                        ["fix_minimum_intensity"]), min_iml)
          | _ => (Raise e, min_iml)
          end
      end
  end.

(** [fix_minimum_intensity(min_iml, imts)]: the array returned, or the
    exception, and the dictionary after the call. *)
Definition fix_minimum_intensity `{Float32} (min_iml : gmap string Q)
    (imts : list string) : result (list Q) * gmap string Q :=
  let '(r, filled) :=
    if bool_decide (min_iml = ∅) then (Ok tt, min_iml)
    else fill_minimum min_iml imts in
  match r with
  | Raise e => (Raise e, filled)
  | Ok _ =>
      let final := delete "default" filled in
      (Ok (map (fun imt => F32 (default 0%Q (final !! imt))) imts), final)
  end.

(** ** [calc.py]: [GmfColl] and [check_overflow] *)

Module GmfColl.

(** A row [(sid, eid, imti, gmv)]. *)
Record row : Type := MkRow {
  sid : nat;
  eid : nat;
  imti : nat;
  gmv : Q
}.

(** [self.data = collections.defaultdict(list)]: rlzi -> rows.
    [__init__(self, imts, rlzs)] reads neither argument. *)
Definition __init__ : gmap nat (list row) := ∅.

(** [save(self, eid, imti, rlz, gmf, sids)], with [rlzi = rlz.ordinal] *)
Definition save (data : gmap nat (list row)) (eid imti rlzi : nat)
    (gmf : list Q) (sids : list nat) : gmap nat (list row) :=
  fold_left
    (fun data gs =>
       <[rlzi := (default [] (data !! rlzi) ++ [MkRow (snd gs) eid imti (fst gs)])%list]>
         data)
    (combine gmf sids) data.

End GmfColl.

Module CheckOverflow.

(** The keys of the dictionaries [max_] and [num_]. *)
Inductive key : Type := Sites | Events | Imts.

Definition name (k : key) : string :=
  match k with
  | Sites => "sites"
  | Events => "events"
  | Imts => "imts"
  end.

(** [max_ = dict(sites=2**16, events=2**32, imts=2**8)] *)
Definition max_ (k : key) : N :=
  match k with
  | Sites => 2 ^ 16
  | Events => 2 ^ 32
  | Imts => 2 ^ 8
  end%N.

(** The loop [for var in max_], the keys being visited in [order]. *)
Fixpoint check (order : list key) (num_ : key -> N) : result unit :=
  match order with
  | [] => Ok tt
  | var :: rest =>
      if (max_ var <? num_ var)%N then
        Raise (Exn ValueError
                 ("The event based calculator is restricted to "
                  ++ pretty (max_ var) ++ " " ++ name var ++ ", got "
                  ++ pretty (num_ var))
                 ["check_overflow"])
      else check rest num_
  end.

(** [check_overflow(calc)], for a calculator with that many sites, events
    and measure types.  The order in which Python visits the keys of [max_]
    is the argument [order]. *)
Definition check_overflow (order : list key) (n_sites n_events n_imts : N)
  : result unit :=
  check order (fun k => match k with
                        | Sites => n_sites
                        | Events => n_events
                        | Imts => n_imts
                        end).

End CheckOverflow.

(** ** Objects for the examples *)

(** A flat geometry: a source is a point, its bounding box at distance [d]
    is the square of half-side [d] around it, and a site is inside a box
    when its coordinates are between the bounds. *)
Definition plane_box (p : Q * Q) (d : Q) : result bbox :=
  Ok (fst p - d, snd p - d, fst p + d, snd p + d)%Q.

Definition plane_in_box (b : bbox) (s : Site) : bool :=
  let '(min_lon, min_lat, max_lon, max_lat) := b in
  Qle_bool min_lon (longitude s) && Qle_bool (longitude s) max_lon
  && Qle_bool min_lat (latitude s) && Qle_bool (latitude s) max_lat.

#[export] Instance plane : Geometry := {|
  geom := Q * Q;
  get_bounding_box := plane_box;
  fix_lon := fun lon => lon;
  in_box := plane_in_box
|}.

Definition three_sites : list Site :=
  [MkSite 0 0; MkSite 1 1; MkSite 10 10]%Q.

Definition sitecol3 : SiteCollection.t := SiteCollection.Make three_sites None.

(** Twenty degrees around the sources of the stable continent, one degree
    around the others. *)
Definition degrees : gmap string IntegrationDistance.raw :=
  {[ "default" := IntegrationDistance.RawNum 1;
     "Stable Continental" := IntegrationDistance.RawNum 20 ]}.

Definition far_source : Source :=
  MkSource plane "far" "Active Shallow Crust" (5, 6.5)%Q (50, 50)%Q None.

Definition near_source : Source :=
  MkSource plane "near" "Active Shallow Crust" (5, 6.5)%Q (0.5, 0.5)%Q None.

Definition wide_source : Source :=
  MkSource plane "wide" "Stable Continental" (5, 8)%Q (5, 5)%Q None.

Definition world0 : world :=
  MkWorld plane {[ 0%nat := far_source; 1%nat := near_source; 2%nat := wide_source ]} [].

(** Source methods for the examples: the source named "far" is out of
    range, the one named "wide" has no rupture, every other source has the
    ruptures 1 and 2, of which the second is out of range. *)
Definition range_methods : SourceMethods := {|
  rupture := nat;
  filter_sites_by_distance_to_source := fun src _ sites =>
    if String.eqb (source_id src) "far" then Ok None else Ok (Some sites);
  iter_ruptures := fun src =>
    if String.eqb (source_id src) "wide" then Ok [] else Ok [1; 2]%nat;
  filter_sites_by_distance_to_rupture := fun rup _ sites =>
    if (rup =? 2)%nat then Ok None else Ok (Some sites)
|}.

(** A source that an earlier filter has left with the indices of the first
    and the last site. *)
Definition cached_source : Source :=
  MkSource plane "cached" "Active Shallow Crust" (5, 6.5)%Q (50, 50)%Q
           (Some [0; 2]%nat).

Definition world1 : world :=
  MkWorld plane {[ 7%nat := cached_source ]} [].

(** The filter [SourceFilter(sitecol3, degrees)] with the given strategy. *)
Definition filter3 (pref : string) : SourceFilter.t :=
  SourceFilter.Make (Some (IntegrationDistance.__init__ degrees)) (Some sitecol3)
    pref
    (if String.eqb pref "rtree"
     then Some (SourceFilter.enumerate_sites sitecol3) else None).

(** The filter that [source_site_noop_filter] is. *)
Definition noop : SourceFilter.t :=
  SourceFilter.Make (Some (IntegrationDistance.__init__ ∅)) None "no" None.

(** Source methods for the examples: filtering the source named "bad" fails
    on its geometry; every other source keeps all the sites and has one
    rupture, which keeps them too. *)
Definition bad_geometry : exn :=
  Exn ValueError "degenerate polygon" ["filter_sites_by_distance_to_source"].

#[export] Instance example_methods : SourceMethods := {|
  rupture := unit;
  filter_sites_by_distance_to_source := fun src _ sites =>
    if String.eqb (source_id src) "bad" then Raise bad_geometry
    else Ok (Some sites);
  iter_ruptures := fun _ => Ok [tt];
  filter_sites_by_distance_to_rupture := fun _ _ sites => Ok (Some sites)
|}.



Definition far_table : gmap string IntegrationDistance.raw :=
  {[ "default" := IntegrationDistance.RawList [(3, 3000)]%Q ]}.

(** The table of the class docstring. *)
Definition doc_table : gmap string IntegrationDistance.raw :=
  {[ "default" := IntegrationDistance.RawList
       [(3, 30); (4, 40); (5, 100); (6, 200); (7, 300); (8, 400)]%Q ]}.

Definition maxdist : IntegrationDistance.t :=
  IntegrationDistance.__init__ doc_table.

(** A flat conversion for the examples: 0.009 degrees for a kilometre, at
    every latitude. *)
Definition flat_degrees : GeoUtils :=
  {| KM_TO_DEGREES := (9 / 1000)%Q;
     angular_distance := fun km _ => (km * (9 / 1000))%Q |}.

(** * Properties *)

(** ** Exceptions and [getdefault] *)

Lemma getdefault_hit {V} (d : gmap string V) key v :
  d !! key = Some v -> getdefault d key = Ok v.
Proof. intros Hk. unfold getdefault. now rewrite Hk. Qed.

Lemma getdefault_default {V} (d : gmap string V) key v :
  d !! key = None -> d !! "default" = Some v -> getdefault d key = Ok v.
Proof. intros Hk Hd. unfold getdefault. now rewrite Hk, Hd. Qed.

Lemma getdefault_missing {V} (d : gmap string V) key :
  d !! key = None -> d !! "default" = None ->
  getdefault d key = Raise (Exn KeyError "'default'" ["getdefault"]).
Proof. intros Hk Hd. unfold getdefault. now rewrite Hk, Hd. Qed.

Lemma getdefault_only_default {V} (v : V) key :
  getdefault ({[ "default" := v ]} : gmap string V) key = Ok v.
Proof.
  unfold getdefault.
  destruct (decide (key = "default")) as [->|Hne].
  - now rewrite lookup_singleton_eq.
  - rewrite lookup_singleton_ne by congruence.
    now rewrite lookup_singleton_eq.
Qed.

(** ** The cache of [IntegrationDistance] is transparent *)

Section integration_distance.
Import IntegrationDistance.

Lemma init_cache_ok d : cache_ok (__init__ d).
Proof. intros trt md. cbn. now rewrite lookup_empty. Qed.

Lemma call_unfold (o : t) trt mag :
  dic (snd (__call__ o trt mag)) = dic o /\
  magdist (snd (__call__ o trt mag)) = magdist o.
Proof.
  unfold __call__.
  destruct (getdefault (dic o) trt) as [[d|l]|e]; cbn; auto.
  destruct mag as [m|]; cbn; auto.
  destruct (default ∅ (piecewise o) !! trt); cbn; auto.
  destruct (build (magdist o) trt); cbn; auto.
Qed.

Lemma call_cache_ok (o : t) trt mag :
  cache_ok o -> cache_ok (snd (__call__ o trt mag)).
Proof.
  intros Hok. unfold __call__.
  destruct (getdefault (dic o) trt) as [[d|l]|e]; cbn; auto.
  destruct mag as [m|]; cbn; auto.
  destruct (default ∅ (piecewise o) !! trt) as [md|] eqn:Hc; cbn.
  - intros trt' md'. cbn. apply Hok.
  - destruct (build (magdist o) trt) as [md|e] eqn:Hb; cbn.
    + intros trt' md'. cbn.
      destruct (decide (trt = trt')) as [<-|Hne].
      * rewrite lookup_insert_eq. congruence.
      * rewrite lookup_insert_ne by assumption. apply Hok.
    + intros trt' md'. cbn. apply Hok.
Qed.

(** Whatever is in the cache, a lookup returns the value of [distance]. *)
Lemma call_distance (o : t) trt mag :
  cache_ok o -> fst (__call__ o trt mag) = distance o trt mag.
Proof.
  intros Hok. unfold __call__, distance.
  destruct (getdefault (dic o) trt) as [[d|l]|e]; cbn; auto.
  destruct mag as [m|]; cbn; auto.
  destruct (default ∅ (piecewise o) !! trt) as [md|] eqn:Hc; cbn.
  - now rewrite (Hok _ _ Hc).
  - destruct (build (magdist o) trt) as [md|e]; cbn; auto.
Qed.

Lemma after_calls_inv o0 o :
  after_calls o0 o -> cache_ok o0 ->
  cache_ok o /\ dic o = dic o0 /\ magdist o = magdist o0.
Proof.
  intros Hreach Hok0. induction Hreach as [|o trt mag _ (Hok & Hd & Hm)].
  - auto.
  - destruct (call_unfold o trt mag) as [Hd' Hm'].
    split; [now apply call_cache_ok | split; congruence].
Qed.

Lemma after_calls_distance o0 o trt mag :
  after_calls o0 o -> cache_ok o0 ->
  fst (__call__ o trt mag) = distance o0 trt mag.
Proof.
  intros Hreach Hok0.
  destruct (after_calls_inv _ _ Hreach Hok0) as (Hok & Hd & Hm).
  rewrite call_distance by assumption.
  unfold distance. now rewrite Hd, Hm.
Qed.

End integration_distance.

Lemma maxdist_distance trt m :
  IntegrationDistance.distance maxdist trt (Some m) =
  IntegrationDistance.distance maxdist "default" (Some m).
Proof.
  unfold IntegrationDistance.distance, IntegrationDistance.build.
  unfold maxdist, IntegrationDistance.__init__, doc_table.
  cbn [IntegrationDistance.dic IntegrationDistance.magdist].
  rewrite map_fmap_singleton.
  rewrite omap_singleton_Some
    with (y := [(3, 30); (4, 40); (5, 100); (6, 200); (7, 300); (8, 400)]%Q)
    by reflexivity.
  now rewrite !getdefault_only_default.
Qed.

(** C3.  For the table of the docstring,
    [{'default': [(3,30),(4,40),(5,100),(6,200),(7,300),(8,400)]}], and any
    tectonic region type, whatever lookups the object has served before, the
    distance is 30 at magnitude 2.5, 30 at magnitude 3, 40 at magnitude 3.1,
    400 at magnitude 8 and 2000 at magnitude 8.5. *)
Theorem doc_table_distances (o : IntegrationDistance.t) (trt : string) :
  IntegrationDistance.after_calls maxdist o ->
  fst (IntegrationDistance.__call__ o trt (Some 2.5%Q)) = Ok 30%Q /\
  fst (IntegrationDistance.__call__ o trt (Some 3%Q)) = Ok 30%Q /\
  fst (IntegrationDistance.__call__ o trt (Some 3.1%Q)) = Ok 40%Q /\
  fst (IntegrationDistance.__call__ o trt (Some 8%Q)) = Ok 400%Q /\
  fst (IntegrationDistance.__call__ o trt (Some 8.5%Q)) = Ok 2000%Q.
Proof.
  intros Hreach.
  pose proof (init_cache_ok doc_table) as Hok.
  rewrite !(after_calls_distance maxdist o) by assumption.
  rewrite !(maxdist_distance trt).
  repeat split; vm_compute; reflexivity.
Qed.

Lemma doc_table_distances_witness :
  fst (IntegrationDistance.__call__
         (snd (IntegrationDistance.__call__ maxdist "Some TRT" (Some 2.5%Q)))
         "Some TRT" (Some 3.1%Q)) = Ok 40%Q.
Proof.
  apply (doc_table_distances
           (snd (IntegrationDistance.__call__ maxdist "Some TRT" (Some 2.5%Q)))
           "Some TRT").
  apply IntegrationDistance.after_call, IntegrationDistance.after_none.
Defined.

(** ** Construction of an [IntegrationDistance] *)

(** The constructor accepts a table with a missing tectonic region type and
    no default (so does a [SourceFilter] built on that table), and the
    object serves the region it knows; the lookup of the missing one fails,
    then and not before. *)
Lemma init_no_default_counterexample :
  no_default_table !! "Stable Continental" = None /\
  no_default_table !! "default" = None /\
  is_Ok (SourceFilter.__init__ None (SourceFilter.ADict no_default_table) "rtree") = true /\
  fst (IntegrationDistance.__call__ (IntegrationDistance.__init__ no_default_table)
         "Active Shallow Crust" (Some 6%Q)) = Ok 200%Q /\
  fst (IntegrationDistance.__call__ (IntegrationDistance.__init__ no_default_table)
         "Stable Continental" (Some 6%Q))
  = Raise (Exn KeyError "'default'" ["getdefault"]).
Proof. repeat split; vm_compute; reflexivity. Qed.

(** C6, as amended.  The constructor of [IntegrationDistance] looks at no
    key: it returns an object for every table, and the table it holds has
    the keys it was given.  When a tectonic region type is missing and there
    is no ['default'] key, it is each distance lookup for that type that
    raises, a [KeyError], whatever lookups came before. *)
Theorem missing_trt_raises_at_lookup
    (d : gmap string IntegrationDistance.raw) (o : IntegrationDistance.t)
    (trt : string) (mag : option Q) :
  IntegrationDistance.after_calls (IntegrationDistance.__init__ d) o ->
  d !! trt = None -> d !! "default" = None ->
  dom (IntegrationDistance.dic (IntegrationDistance.__init__ d)) = dom d /\
  fst (IntegrationDistance.__call__ o trt mag)
  = Raise (Exn KeyError "'default'" ["getdefault"]).
Proof.
  intros Hreach Htrt Hdef. split.
  - cbn. apply dom_fmap_L.
  - rewrite (after_calls_distance _ o trt mag Hreach (init_cache_ok d)).
    unfold IntegrationDistance.distance. cbn.
    rewrite getdefault_missing; [reflexivity | |];
      rewrite lookup_fmap; [now rewrite Htrt | now rewrite Hdef].
Qed.

Lemma missing_trt_raises_at_lookup_witness :
  fst (IntegrationDistance.__call__ (IntegrationDistance.__init__ ∅)
         "Volcanic" None)
  = Raise (Exn KeyError "'default'" ["getdefault"]).
Proof.
  apply (missing_trt_raises_at_lookup ∅ (IntegrationDistance.__init__ ∅)
           "Volcanic" None).
  - apply IntegrationDistance.after_none.
  - reflexivity.
  - reflexivity.
Defined.

(** ** Construction of a [SourceFilter] *)

(** C9.  The constructor of [SourceFilter] raises a [ValueError] when the
    site collection is shorter than its complete collection, and returns a
    filter when the collection is complete. *)
Theorem init_requires_complete (sc : SiteCollection.t)
    (a : SourceFilter.distance_arg) (pref : string) :
  ((SiteCollection.len sc < length (SiteCollection.complete sc))%nat ->
   SourceFilter.__init__ (Some sc) a pref
   = Raise (Exn ValueError (SiteCollection.__repr__ sc ++ " is not complete!")
              ["SourceFilter.__init__"])) /\
  (SiteCollection.len sc = length (SiteCollection.complete sc) ->
   exists sf, SourceFilter.__init__ (Some sc) a pref = Ok sf /\
              SourceFilter.sitecol sf = Some sc).
Proof.
  unfold SourceFilter.__init__. split; intros Hlen.
  - apply Nat.ltb_lt in Hlen. now rewrite Hlen.
  - assert (Hge : (SiteCollection.len sc <? length (SiteCollection.complete sc))%nat = false)
      by (apply Nat.ltb_ge; lia).
    rewrite Hge. eexists. split; reflexivity.
Qed.

Lemma init_requires_complete_witness :
  SourceFilter.__init__ (Some (SiteCollection.Make three_sites (Some [0; 2]%nat)))
    (SourceFilter.ADict doc_table) "rtree"
  = Raise (Exn ValueError "<SiteCollection with 2/3 sites> is not complete!"
             ["SourceFilter.__init__"]) /\
  exists sf, SourceFilter.__init__ (Some (SiteCollection.Make three_sites None))
               (SourceFilter.ADict doc_table) "rtree" = Ok sf /\
             SourceFilter.sitecol sf = Some (SiteCollection.Make three_sites None).
Proof.
  split.
  - apply (proj1 (init_requires_complete
                    (SiteCollection.Make three_sites (Some [0; 2]%nat))
                    (SourceFilter.ADict doc_table) "rtree")).
    vm_compute. lia.
  - apply (proj2 (init_requires_complete
                    (SiteCollection.Make three_sites None)
                    (SourceFilter.ADict doc_table) "rtree")).
    reflexivity.
Defined.

(** ** Hazard curves from ground-motion values *)

Section hazard_curves.
Open Scope R_scope.

(** The row sums of the broadcast comparison are the counts of the
    specification. *)
Lemma sum_axis1_exceeding gmvs imls :
  sum_axis1 (exceeding gmvs imls) = map (num_ge gmvs) imls.
Proof.
  unfold sum_axis1, exceeding. rewrite map_map.
  apply map_ext. intros iml. unfold num_ge.
  induction gmvs as [|g gmvs IH]; cbn; [reflexivity|].
  destruct (Rge_dec g iml); cbn; now rewrite IH.
Qed.

(** C2.  For positive investigation time and duration, the curve gives each
    intensity level the probability [1 - exp(-(invest_time/duration) * count)],
    [count] being the number of ground-motion values greater than or equal
    to the level; for [gmvs=[0.04750576]], [imls=[0.03,0.04,0.05]] and both
    times 1 it is [[1-e^-1, 1-e^-1, 0]]. *)
Theorem gmvs_to_haz_curve_poisson (gmvs imls : list R) (invest_time duration : R) :
  0 < invest_time -> 0 < duration ->
  _gmvs_to_haz_curve gmvs imls invest_time duration
  = Ok (map (fun iml =>
               1 - exp (- (invest_time / duration) * INR (num_ge gmvs iml)))
            imls)
  /\ _gmvs_to_haz_curve [0.04750576] [0.03; 0.04; 0.05] 1 1
     = Ok [1 - exp (-1); 1 - exp (-1); 0].
Proof.
  intros Ht Hd. split.
  - unfold _gmvs_to_haz_curve.
    destruct (Req_dec_T duration 0) as [E|_]; [lra|].
    rewrite sum_axis1_exceeding, map_map. reflexivity.
  - unfold _gmvs_to_haz_curve.
    destruct (Req_dec_T 1 0) as [E|_]; [lra|].
    rewrite sum_axis1_exceeding. cbn [map]. unfold num_ge. cbn [List.filter].
    destruct (Rge_dec 0.04750576 0.03) as [_|N]; [|exfalso; lra].
    destruct (Rge_dec 0.04750576 0.04) as [_|N]; [|exfalso; lra].
    destruct (Rge_dec 0.04750576 0.05) as [N|_]; [exfalso; lra|].
    cbn [length]. unfold np_exp.
    replace (- (1 / 1) * INR 1) with (-1) by (cbn; lra).
    replace (- (1 / 1) * INR 0) with 0 by (cbn; lra).
    rewrite exp_0. do 4 f_equal. lra.
Qed.

Lemma gmvs_to_haz_curve_poisson_witness :
  _gmvs_to_haz_curve [0.5; 0.2] [0.1] 50 100
  = Ok (map (fun iml => 1 - exp (- (50 / 100) * INR (num_ge [0.5; 0.2] iml)))
            [0.1]).
Proof.
  apply (gmvs_to_haz_curve_poisson [0.5; 0.2] [0.1] 50 100); lra.
Defined.

End hazard_curves.

(** ** The piecewise lookup *)

Section piecewise.
Open Scope Q_scope.

Lemma Qltb_lt a b : Qltb a b = true <-> a < b.
Proof.
  unfold Qltb. rewrite negb_true_iff. split.
  - intros Hb. apply Qnot_le_lt. intros Hle.
    apply Qle_bool_iff in Hle. congruence.
  - intros Hlt. destruct (Qle_bool b a) eqn:E; [|reflexivity].
    apply Qle_bool_iff in E. exfalso. apply (Qlt_not_le _ _ Hlt E).
Qed.

Lemma Qltb_ge a b : Qltb a b = false <-> b <= a.
Proof.
  unfold Qltb. rewrite negb_false_iff. apply Qle_bool_iff.
Qed.

Lemma searchsorted_le_length xs v : (searchsorted xs v <= length xs)%nat.
Proof.
  induction xs as [|a xs IH]; cbn; [lia|].
  destruct (Qltb a v); cbn; lia.
Qed.

(** Every element before the position found is below the value. *)
Lemma searchsorted_before xs v i :
  (i < searchsorted xs v)%nat -> nth i xs 0 < v.
Proof.
  revert i. induction xs as [|a xs IH]; cbn; intros i Hi; [lia|].
  destruct (Qltb a v) eqn:E; [|lia].
  destruct i as [|i]; [now apply Qltb_lt | apply IH; lia].
Qed.

(** The element at the position found is not below the value. *)
Lemma searchsorted_at xs v :
  (searchsorted xs v < length xs)%nat -> v <= nth (searchsorted xs v) xs 0.
Proof.
  induction xs as [|a xs IH]; cbn; intros Hlt; [lia|].
  destruct (Qltb a v) eqn:E.
  - apply IH. lia.
  - now apply Qltb_ge.
Qed.


Lemma ascending_head a xs j :
  ascending (a :: xs) = true -> (j < length xs)%nat -> a < nth j xs 0.
Proof.
  revert a j. induction xs as [|b xs IH]; intros a j Hasc Hj; cbn in Hj; [lia|].
  cbn [ascending] in Hasc. apply andb_true_iff in Hasc as [Hab Hrest].
  apply Qltb_lt in Hab.
  destruct j as [|j]; cbn [nth]; [assumption|].
  eapply Qlt_trans; [exact Hab | apply IH; [assumption | lia]].
Qed.

Lemma ascending_tail a xs : ascending (a :: xs) = true -> ascending xs = true.
Proof.
  destruct xs as [|b xs]; [reflexivity|].
  cbn [ascending]. intros Hasc. now apply andb_true_iff in Hasc as [_ ?].
Qed.

Lemma ascending_nth xs i j :
  ascending xs = true -> (i < j < length xs)%nat -> nth i xs 0 < nth j xs 0.
Proof.
  revert i j. induction xs as [|a xs IH]; intros i j Hasc Hij; cbn in Hij; [lia|].
  destruct j as [|j]; [lia|].
  destruct i as [|i]; cbn [nth].
  - apply (ascending_head a xs j Hasc). lia.
  - apply IH; [now apply ascending_tail in Hasc | lia].
Qed.

(** Above the last element of an ascending list, the search runs to the end. *)
Lemma searchsorted_above xs v :
  ascending xs = true -> nth (length xs - 1) xs 0 < v ->
  searchsorted xs v = length xs.
Proof.
  intros Hasc Hlast.
  pose proof (searchsorted_le_length xs v) as Hle.
  destruct (decide (searchsorted xs v = length xs)) as [|Hne]; [assumption|].
  exfalso.
  assert (Hlt : (searchsorted xs v < length xs)%nat) by lia.
  pose proof (searchsorted_at xs v Hlt) as Hat.
  destruct (decide (searchsorted xs v = length xs - 1)%nat) as [E|Hne'].
  - rewrite E in Hat. apply (Qlt_not_le _ _ Hlast Hat).
  - assert (Hn : nth (searchsorted xs v) xs 0 < nth (length xs - 1) xs 0)
      by (apply ascending_nth; [assumption | lia]).
    apply (Qlt_not_le _ _ Hlast). apply Qlt_le_weak.
    eapply Qle_lt_trans; eassumption.
Qed.



Lemma nth_range_Q n i :
  (i < n)%nat -> nth i (range_Q n) 0 = inject_Z (Z.of_nat i).
Proof.
  intros Hi. unfold range_Q.
  change 0 with (inject_Z (Z.of_nat 0)).
  rewrite (map_nth (fun i => inject_Z (Z.of_nat i))).
  now rewrite seq_nth.
Qed.

(** The ceiling of a rational in the half-open unit interval above [k]. *)
Lemma Qceiling_above (k : Z) (q : Q) :
  inject_Z k < q -> q <= inject_Z k + 1 -> Qceiling q = (k + 1)%Z.
Proof.
  intros Hlo Hhi.
  pose proof (Qle_ceiling q) as Hc1.
  pose proof (Qceiling_lt q) as Hc2.
  assert (H1 : inject_Z k < inject_Z (Qceiling q))
    by (eapply Qlt_le_trans; eassumption).
  assert (H2 : inject_Z (Qceiling q - 1) < inject_Z (k + 1)).
  { eapply Qlt_le_trans; [exact Hc2|].
    rewrite inject_Z_plus. exact Hhi. }
  rewrite <- Zlt_Qlt in H1, H2. lia.
Qed.

Lemma unit_segment (xl xh m : Q) :
  xl < m -> m <= xh ->
  0 < (1 / (xh - xl)) * (m - xl) /\ (1 / (xh - xl)) * (m - xl) <= 1.
Proof.
  intros Hlo Hhi.
  assert (Hd : 0 < xh - xl) by lra.
  assert (Hn : 0 < m - xl) by lra.
  assert (E : (1 / (xh - xl)) * (m - xl) == (m - xl) / (xh - xl))
    by (field; lra).
  rewrite E. split.
  - apply Qlt_shift_div_l; [assumption | lra].
  - apply Qle_shift_div_r; [assumption | lra].
Qed.

Lemma searchsorted_below xs v :
  v < nth 0 xs 0 -> searchsorted xs v = 0%nat.
Proof.
  destruct xs as [|a xs]; cbn; [reflexivity|]. intros Hlt.
  destruct (Qltb a v) eqn:E; [|reflexivity].
  apply Qltb_lt in E. exfalso. lra.
Qed.

(** What [interp1d] followed by [numpy.ceil] computes on ascending
    abscissas mapped to their positions. *)
Lemma interp_ceiling xs m :
  ascending xs = true -> (2 <= length xs)%nat ->
  Qceiling
    (interp1d.__call__
       (interp1d.Make xs (range_Q (length xs))
          (0, inject_Z (Z.of_nat (length xs) - 1))) m)
  = Z.of_nat (index_of xs m).
Proof.
  intros Hasc Hlen. unfold interp1d.__call__, index_of.
  cbn [interp1d.x interp1d.y interp1d.fill_value fst snd].
  destruct (Qltb m (nth 0 xs 0)) eqn:Ebelow.
  { apply Qltb_lt in Ebelow.
    rewrite searchsorted_below by assumption.
    now rewrite Nat.min_0_r. }
  destruct (Qltb (nth (length xs - 1) xs 0) m) eqn:Eabove.
  { apply Qltb_lt in Eabove.
    rewrite searchsorted_above by assumption.
    rewrite Nat.min_l by lia. rewrite Qceiling_Z. lia. }
  apply Qltb_ge in Ebelow, Eabove.
  pose proof (searchsorted_le_length xs m) as Hss.
  assert (Hss' : (searchsorted xs m <= length xs - 1)%nat).
  { destruct (decide (searchsorted xs m = length xs)) as [E|]; [|lia].
    exfalso.
    assert (Hb : nth (length xs - 1) xs 0 < m)
      by (apply searchsorted_before; lia).
    lra. }
  rewrite Nat.min_r by assumption.
  destruct (searchsorted xs m) as [|k] eqn:Ess.
  - (* the magnitude is the first control point *)
    pose proof (searchsorted_at xs m) as Hat. rewrite Ess in Hat.
    assert (Hm : m <= nth 0 xs 0) by (apply Hat; lia).
    replace (clip 0 1 (length xs - 1)) with 1%nat by (unfold clip; lia).
    cbn [Nat.sub]. rewrite !nth_range_Q by lia.
    transitivity (Qceiling 0); [|reflexivity].
    apply Qceiling_comp.
    assert (E0 : m - nth 0 xs 0 == 0) by lra.
    rewrite E0.
    cbn [Z.of_nat]. ring.
  - (* strictly above the control point [k], at most the control point [S k] *)
    replace (clip (S k) 1 (length xs - 1)) with (S k) by (unfold clip; lia).
    replace (S k - 1)%nat with k by lia.
    rewrite !nth_range_Q by lia.
    assert (Hlo : nth k xs 0 < m) by (apply searchsorted_before; lia).
    assert (Hhi : m <= nth (S k) xs 0).
    { pose proof (searchsorted_at xs m) as Hat. rewrite Ess in Hat.
      apply Hat. lia. }
    destruct (unit_segment _ _ _ Hlo Hhi) as [Ht0 Ht1].
    assert (E1 : inject_Z (Z.of_nat (S k)) - inject_Z (Z.of_nat k) == 1).
    { unfold Qminus. rewrite <- inject_Z_opp, <- inject_Z_plus.
      replace (Z.of_nat (S k) + - Z.of_nat k)%Z with 1%Z by lia.
      reflexivity. }
    rewrite (Nat2Z.inj_succ k) at 2. unfold Z.succ.
    apply Qceiling_above; rewrite E1; lra.
Qed.

Lemma getitem_nth (a : list Q) (i : nat) :
  (i < length a)%nat -> Piecewise.getitem a (Z.of_nat i) = Ok (nth i a 0).
Proof.
  intros Hi. unfold Piecewise.getitem. cbv zeta.
  assert (E1 : (Z.of_nat i <? 0)%Z = false) by (apply Z.ltb_ge; lia).
  assert (E2 : (Z.of_nat (length a) <=? Z.of_nat i)%Z = false)
    by (apply Z.leb_gt; lia).
  rewrite E1. cbv iota. rewrite E1, E2. cbn [orb].
  rewrite Nat2Z.id, nth_lookup.
  destruct (a !! i) as [v|] eqn:E; [reflexivity|].
  apply lookup_ge_None in E. lia.
Qed.

(** The lookup of a [Piecewise] built on ascending abscissas. *)
Lemma piecewise_lookup xs ys m :
  ascending xs = true -> (2 <= length xs)%nat -> length ys = length xs ->
  exists md, Piecewise.__init__ xs ys = Ok md /\
             Piecewise.__call__ md m = Ok (nth (index_of xs m) ys 0).
Proof.
  intros Hasc Hlen Hys.
  unfold Piecewise.__init__, interp1d.__init__.
  assert (Hr : length (range_Q (length xs)) = length xs)
    by (unfold range_Q; now rewrite length_map, length_seq).
  rewrite Hr, Nat.eqb_refl. cbn [negb].
  replace (length xs <? 2)%nat with false by (symmetry; apply Nat.ltb_ge; lia).
  cbn [bind]. eexists. split; [reflexivity|].
  unfold Piecewise.__call__. cbn [Piecewise.piecewise Piecewise.y].
  rewrite interp_ceiling by assumption.
  apply getitem_nth. unfold index_of. lia.
Qed.





End piecewise.

(** ** Monotonicity of the distance lookup and its ceiling *)

Section lookup.
Import IntegrationDistance.
Open Scope Q_scope.

Lemma getdefault_init (d : gmap string raw) trt pairs :
  getdefault d trt = Ok (RawList pairs) ->
  getdefault (dic (__init__ d)) trt = Ok (VList pairs) /\
  getdefault (magdist (__init__ d)) trt = Ok pairs.
Proof.
  unfold getdefault. cbn [__init__ dic magdist].
  rewrite !lookup_fmap, !lookup_omap.
  destruct (d !! trt) as [r|]; cbn.
  - intros [= ->]. auto.
  - destruct (d !! "default") as [r|]; cbn; [|discriminate].
    intros [= ->]. auto.
Qed.






(** With a distance above 2000 the appended point makes the lookup drop. *)
Lemma far_table_decreases :
  fst (__call__ (__init__ far_table) "Subduction" (Some 3)) = Ok 3000 /\
  fst (__call__ (__init__ far_table) "Subduction" (Some 4)) = Ok 2000.
Proof. split; vm_compute; reflexivity. Qed.

End lookup.

(** ** The source filter *)

Section source_filter.
Context `{G : Geometry}.
Import SourceFilter.
Open Scope list_scope.

Lemma get_affected_box_fields (sf : t) (src : Source) :
  sitecol (snd (get_affected_box sf src)) = sitecol sf /\
  prefilter (snd (get_affected_box sf src)) = prefilter sf /\
  index (snd (get_affected_box sf src)) = index sf.
Proof.
  unfold get_affected_box.
  destruct (integration_distance sf) as [o|]; [|auto].
  destruct (IntegrationDistance.__call__ o _ _) as [r o']. cbn. auto.
Qed.


Lemma turn_no (sf : t) sites a w src :
  objects w !! a = Some src -> indices src = None -> prefilter sf = "no" ->
  turn sf sites a w = (Ok (Some (a, sites)), sf, w).
Proof. intros Ha Hix Hp. unfold turn. now rewrite Ha, Hix, Hp. Qed.

Lemma turn_rtree (sf sf1 : t) s a w src box idx :
  objects w !! a = Some src -> indices src = None -> prefilter sf = "rtree" ->
  get_affected_box sf src = (Ok box, sf1) -> index sf = Some idx ->
  turn sf (Some s) a w
  = if (0 <? length (within box idx))%nat
    then (Ok (Some (a, Some (SiteCollection.filtered s (within box idx)))), sf1,
          store a (set_indices src (within box idx))
            (log (EvIndexQuery box) (log (EvAffectedBox a) w)))
    else (Ok None, sf1, log (EvIndexQuery box) (log (EvAffectedBox a) w)).
Proof.
  intros Ha Hix Hp Hbox Hidx. unfold turn. rewrite Ha, Hix, Hp. cbn [String.eqb].
  change (String.eqb "rtree" "no") with false.
  change (String.eqb "rtree" "rtree") with true. cbv iota.
  pose proof (get_affected_box_fields sf src) as (_ & _ & Hi).
  rewrite Hbox in *. cbn [snd] in Hi. rewrite Hi, Hidx.
  destruct (0 <? length (within box idx))%nat; reflexivity.
Qed.

Lemma turn_numpy (sf sf1 : t) s a w src box :
  objects w !! a = Some src -> indices src = None -> prefilter sf = "numpy" ->
  get_affected_box sf src = (Ok box, sf1) ->
  turn sf (Some s) a w
  = match SiteCollection.within_bbox s box with
    | Some s_sites =>
        (Ok (Some (a, Some s_sites)), sf1,
         store a (set_indices src (get_indices s_sites))
           (log (EvWithinBbox box) (log (EvAffectedBox a) w)))
    | None => (Ok None, sf1, log (EvWithinBbox box) (log (EvAffectedBox a) w))
    end.
Proof.
  intros Ha Hix Hp Hbox. unfold turn. rewrite Ha, Hix, Hp.
  change (String.eqb "numpy" "no") with false.
  change (String.eqb "numpy" "rtree") with false.
  change (String.eqb "numpy" "numpy") with true. cbv iota.
  rewrite Hbox.
  destruct (SiteCollection.within_bbox s box); reflexivity.
Qed.

(** A turn leaves the site collection, the strategy and the index of the
    filter as they are. *)
Lemma turn_fields (sf : t) sites a w :
  sitecol (snd (fst (turn sf sites a w))) = sitecol sf /\
  prefilter (snd (fst (turn sf sites a w))) = prefilter sf /\
  index (snd (fst (turn sf sites a w))) = index sf.
Proof.
  unfold turn. destruct (objects w !! a) as [src|]; [|auto].
  destruct (indices src); [auto|].
  destruct (String.eqb (prefilter sf) "no"); [auto|].
  pose proof (get_affected_box_fields sf src) as Hs.
  destruct (String.eqb (prefilter sf) "rtree").
  { destruct (get_affected_box sf src) as [[box|e] sf']; cbn [snd] in Hs;
      [|exact Hs].
    destruct (index sf') eqn:Ei; [|cbn [fst snd]; rewrite Ei; exact Hs].
    destruct (0 <? length _)%nat; cbn [fst snd]; rewrite Ei; exact Hs. }
  destruct (String.eqb (prefilter sf) "numpy"); [|auto].
  destruct sites as [s|]; [|auto].
  destruct (get_affected_box sf src) as [[box|e] sf']; cbn [snd] in Hs;
    [|exact Hs].
  destruct (SiteCollection.within_bbox s box); exact Hs.
Qed.

Lemma loop_fields (sf : t) sites sources w :
  sitecol (snd (fst (loop sf sites sources w))) = sitecol sf /\
  prefilter (snd (fst (loop sf sites sources w))) = prefilter sf /\
  index (snd (fst (loop sf sites sources w))) = index sf.
Proof.
  revert sf w. induction sources as [|a rest IH]; intros sf w; cbn [loop].
  - auto.
  - pose proof (turn_fields sf sites a w) as (Hs & Hp & Hi).
    destruct (turn sf sites a w) as [[[y|e] sf1] w1]; cbn [fst snd] in *; [|auto].
    specialize (IH sf1 w1).
    destruct (loop sf1 sites rest w1) as [[g sf2] w2]. cbn [fst snd] in *.
    destruct IH as (Hs' & Hp' & Hi'). repeat split; congruence.
Qed.

Lemma gen_cons_None {A} (g : gen A) : gen_cons None g = g.
Proof. now destruct g. Qed.

Lemma loop_cons_fst (y : option (nat * option SiteCollection.t))
    (r : gen (nat * option SiteCollection.t) * t * world) :
  fst (fst (let '(g, sf2, w2) := r in (gen_cons y g, sf2, w2)))
  = gen_cons y (fst (fst r)).
Proof. now destruct r as [[g sf2] w2]. Qed.

(** The loop over a list of sources is the loop over its first part
    followed, if that was not stopped, by the loop over the rest. *)
Lemma loop_app (sf : t) sites l1 l2 w :
  fst (fst (loop sf sites (l1 ++ l2) w))
  = gen_seq (fst (fst (loop sf sites l1 w)))
      (fst (fst (loop (snd (fst (loop sf sites l1 w))) sites l2
                   (snd (loop sf sites l1 w))))).
Proof.
  revert sf w. induction l1 as [|a l1 IH]; intros sf w; cbn [app loop].
  - cbn. unfold gen_seq. cbn. now destruct (loop sf sites l2 w) as [[[] ?] ?].
  - destruct (turn sf sites a w) as [[[y|e] sf1] w1]; [|reflexivity].
    specialize (IH sf1 w1).
    destruct (loop sf1 sites (l1 ++ l2) w1) as [[g sf2] w2].
    destruct (loop sf1 sites l1 w1) as [[g1 sf3] w3]. cbn [fst snd] in *.
    rewrite IH. destruct g1 as [y1 [e1|]]; unfold gen_seq, gen_cons;
      cbn [stopped yielded]; [reflexivity|]. now rewrite app_assoc.
Qed.

(** A turn yields nothing, or the source it was given. *)
Lemma turn_yields_own (sf sf1 : t) sites a w w1 y :
  turn sf sites a w = (Ok (Some y), sf1, w1) -> fst y = a.
Proof.
  unfold turn. destruct (objects w !! a) as [src|]; [|discriminate].
  destruct (indices src) as [ix|].
  { destruct sites; cbn; [|discriminate]. now intros [= <- _ _]. }
  destruct (String.eqb (prefilter sf) "no"); [now intros [= <- _ _]|].
  destruct (String.eqb (prefilter sf) "rtree").
  { destruct (get_affected_box sf src) as [[box|e] sf']; [|discriminate].
    destruct (index sf'); [|discriminate].
    destruct (0 <? length _)%nat; [|discriminate].
    destruct sites; cbn; [|discriminate]. now intros [= <- _ _]. }
  destruct (String.eqb (prefilter sf) "numpy"); [|discriminate].
  destruct sites as [s|]; [|discriminate].
  destruct (get_affected_box sf src) as [[box|e] sf']; [|discriminate].
  destruct (SiteCollection.within_bbox s box); [|discriminate].
  now intros [= <- _ _].
Qed.

(** The sources yielded are a subsequence of the sources given. *)
Lemma loop_sublist (sf : t) sites sources w :
  sublist (map fst (yielded (fst (fst (loop sf sites sources w))))) sources.
Proof.
  revert sf w. induction sources as [|a rest IH]; intros sf w; cbn.
  - constructor.
  - destruct (turn sf sites a w) as [[r sf1] w1] eqn:Hturn.
    destruct r as [y|e]; cbn; [|apply sublist_nil_l].
    specialize (IH sf1 w1).
    destruct (loop sf1 sites rest w1) as [[g sf2] w2]. cbn in *.
    destruct y as [y|]; cbn.
    + rewrite (turn_yields_own _ _ _ _ _ _ _ Hturn).
      now apply sublist_skip.
    + now apply sublist_cons.
Qed.

Lemma omap_lookup_seq {A} (pre l : list A) :
  omap (fun i => (pre ++ l) !! i) (seq (length pre) (length l)) = l.
Proof.
  revert pre. induction l as [|x l IH]; intros pre; [reflexivity|].
  cbn [length seq]. unfold omap. cbn [list_omap].
  rewrite list_lookup_middle by reflexivity.
  f_equal. specialize (IH (pre ++ [x])).
  rewrite <- app_assoc, length_app in IH. cbn in IH.
  now rewrite Nat.add_1_r in IH.
Qed.

Lemma sites_complete (pts : list Site) :
  SiteCollection.sites (SiteCollection.Make pts None) = pts.
Proof. apply (omap_lookup_seq [] pts). Qed.

Lemma within_none box (pts : list Site) :
  (forall p, p ∈ pts -> in_box box p = false) ->
  within box (enumerate_sites (SiteCollection.Make pts None)) = [].
Proof.
  intros Hout. unfold within, enumerate_sites. rewrite sites_complete.
  generalize 0%nat. induction pts as [|p pts IH]; intros n; [reflexivity|].
  cbn. rewrite (Hout p) by constructor.
  apply IH. intros q Hq. apply Hout. now constructor.
Qed.

Lemma within_all box (pts : list Site) :
  (forall p, p ∈ pts -> in_box box p = true) ->
  within box (enumerate_sites (SiteCollection.Make pts None))
  = seq 0 (length pts).
Proof.
  intros Hin. unfold within, enumerate_sites. rewrite sites_complete.
  generalize 0%nat. induction pts as [|p pts IH]; intros n; [reflexivity|].
  cbn. rewrite (Hin p) by constructor. cbn. f_equal.
  apply IH. intros q Hq. apply Hin. now constructor.
Qed.

Lemma inside_lookup box (pts : list Site) (pre : list Site) (b : bool) :
  (forall p, p ∈ pts -> in_box box p = b) ->
  List.filter (SiteCollection.inside (SiteCollection.Make (pre ++ pts) None) box)
    (seq (length pre) (length pts))
  = if b then seq (length pre) (length pts) else [].
Proof.
  revert pre. induction pts as [|p pts IH]; intros pre Hb.
  { destruct b; reflexivity. }
  cbn [length seq List.filter]. unfold SiteCollection.inside at 1.
  cbn [SiteCollection.complete].
  rewrite list_lookup_middle by reflexivity.
  rewrite (Hb p) by constructor.
  specialize (IH (pre ++ [p])).
  rewrite <- app_assoc, length_app in IH. cbn in IH.
  rewrite Nat.add_1_r in IH. rewrite IH.
  - destruct b; reflexivity.
  - intros q Hq. apply Hb. now constructor.
Qed.

Lemma within_bbox_none box (pts : list Site) :
  (forall p, p ∈ pts -> in_box box p = false) ->
  SiteCollection.within_bbox (SiteCollection.Make pts None) box = None.
Proof.
  intros Hout. unfold SiteCollection.within_bbox, SiteCollection.sids.
  pose proof (inside_lookup box pts [] false Hout) as E.
  cbn in *. now rewrite E.
Qed.

Lemma within_bbox_all box (pts : list Site) :
  (forall p, p ∈ pts -> in_box box p = true) -> pts <> [] ->
  SiteCollection.within_bbox (SiteCollection.Make pts None) box
  = Some (SiteCollection.filtered (SiteCollection.Make pts None)
            (seq 0 (length pts))).
Proof.
  intros Hin Hne. unfold SiteCollection.within_bbox, SiteCollection.sids.
  pose proof (inside_lookup box pts [] true Hin) as E.
  cbn in *. rewrite E.
  destruct pts; [congruence | reflexivity].
Qed.

Lemma init_fields (sc : SiteCollection.t) a pref (sf : t) :
  __init__ (Some sc) a pref = Ok sf ->
  sitecol sf = Some sc /\
  index sf = if String.eqb (prefilter sf) "rtree"
             then Some (enumerate_sites sc) else None.
Proof.
  unfold __init__.
  destruct (SiteCollection.len sc <? length (SiteCollection.complete sc))%nat;
    [discriminate|].
  intros [= <-]. cbn. auto.
Qed.


(** C4, as amended.  For a filter built on a complete site collection whose
    strategy is ['rtree'] or ['numpy'], a sequence of sources, and in it a
    source that, when its turn comes, carries no cached indices and has its
    affected box computed: when the box contains none of the sites the source
    adds no pair and no error to what the sources before it produced; when it
    contains every site of a non-empty collection it adds one pair, which
    holds the site ids of the full collection.  For every filter, the sources
    of the pairs produced are a subsequence of the sources given. *)
Theorem filter_by_affected_box (pts : list Site) (arg : distance_arg)
    (pref : string) (sf : t) :
  __init__ (Some (SiteCollection.Make pts None)) arg pref = Ok sf ->
  prefilter sf = "rtree" \/ prefilter sf = "numpy" ->
  (forall before a after w g0 sf0 w0 src box sf1,
     __call__ sf before None w = (g0, sf0, w0) -> stopped g0 = None ->
     objects w0 !! a = Some src -> indices src = None ->
     get_affected_box sf0 src = (Ok box, sf1) ->
     ((forall p, p ∈ pts -> in_box box p = false) ->
      exists w1,
        fst (fst (__call__ sf (before ++ a :: after) None w))
        = gen_seq g0 (fst (fst (__call__ sf1 after None w1)))) /\
     ((forall p, p ∈ pts -> in_box box p = true) -> pts <> [] ->
      exists s w1,
        SiteCollection.sids s
        = SiteCollection.sids (SiteCollection.Make pts None) /\
        fst (fst (__call__ sf (before ++ a :: after) None w))
        = gen_seq g0 (gen_cons (Some (a, Some s))
                        (fst (fst (__call__ sf1 after None w1)))))) /\
  (forall (sf' : t) sources sites w,
     sublist (map fst (yielded (fst (fst (__call__ sf' sources sites w)))))
             sources).
Proof.
  intros Hinit Hpref. split; [|intros; apply loop_sublist].
  destruct (init_fields _ _ _ _ Hinit) as [Hsc Hidx].
  intros before a after w g0 sf0 w0 src box sf1 Hbefore Hg0 Ha Hix Hbox.
  unfold __call__ in *. rewrite Hsc in *.
  set (sc := SiteCollection.Make pts None) in *.
  pose proof (loop_fields sf (Some sc) before w) as (Hs0 & Hp0 & Hi0).
  rewrite Hbefore in Hs0, Hp0, Hi0. cbn [fst snd] in Hs0, Hp0, Hi0.
  pose proof (get_affected_box_fields sf0 src) as (Hs1 & _).
  rewrite Hbox in Hs1. cbn [snd] in Hs1.
  assert (Hsc1 : sitecol sf1 = Some sc) by congruence.
  rewrite Hsc1, loop_app, Hbefore. cbn [fst snd loop].
  subst sc.
  destruct Hpref as [Hp|Hp]; rewrite Hp in Hidx, Hp0.
  - change (index sf = Some (enumerate_sites (SiteCollection.Make pts None)))
      in Hidx.
    rewrite <- Hi0 in Hidx.
    rewrite (turn_rtree sf0 sf1 _ a w0 src box _ Ha Hix Hp0 Hbox Hidx).
    split.
    + intros Hout. rewrite within_none by assumption.
      cbn [length Nat.ltb Nat.leb].
      rewrite loop_cons_fst, gen_cons_None. eexists. reflexivity.
    + intros Hin Hne. rewrite within_all by assumption.
      rewrite length_seq.
      assert (Hpos : (0 <? length pts)%nat = true)
        by (apply Nat.ltb_lt; destruct pts; [congruence | cbn; lia]).
      rewrite Hpos. cbn [filtered_of bind].
      rewrite loop_cons_fst. eexists _, _. split; [|reflexivity]. reflexivity.
  - rewrite (turn_numpy sf0 sf1 _ a w0 src box Ha Hix Hp0 Hbox).
    split.
    + intros Hout. rewrite within_bbox_none by assumption.
      rewrite loop_cons_fst, gen_cons_None. eexists. reflexivity.
    + intros Hin Hne. rewrite within_bbox_all by assumption.
      rewrite loop_cons_fst. eexists _, _. split; [|reflexivity]. reflexivity.
Qed.



End source_filter.

(** *** The filter on the example objects *)

Lemma filter3_init pref :
  SourceFilter.__init__ (Some sitecol3) (SourceFilter.ADict degrees) pref
  = Ok (filter3 pref).
Proof. reflexivity. Qed.

Lemma noop_init : source_site_noop_filter = Ok noop.
Proof. reflexivity. Qed.

(** With the strategy ['no'], a source whose affected box contains none of
    the sites is yielded, with all the sites. *)
Lemma no_strategy_counterexample :
  SourceFilter.__init__ (Some sitecol3) (SourceFilter.ADict degrees) "no"
  = Ok (filter3 "no") /\
  fst (SourceFilter.get_affected_box (filter3 "no") far_source)
  = Ok (49, 49, 51, 51)%Q /\
  forallb (fun p => negb (in_box (49, 49, 51, 51)%Q p)) three_sites = true /\
  fst (fst (SourceFilter.__call__ (filter3 "no") [0%nat] None world0))
  = MkGen [(0%nat, Some sitecol3)] None.
Proof. repeat split; vm_compute; reflexivity. Qed.

(** A source that carries indices is yielded with them, wherever it is. *)
Lemma cached_source_is_not_dropped :
  fst (SourceFilter.get_affected_box (filter3 "rtree") cached_source)
  = Ok (49, 49, 51, 51)%Q /\
  fst (fst (SourceFilter.__call__ (filter3 "rtree") [7%nat] None world1))
  = MkGen [(7%nat, Some (SiteCollection.Make three_sites (Some [0; 2]%nat)))] None.
Proof. split; vm_compute; reflexivity. Qed.

(** The module-level filter has no site collection of its own: called
    without sites on a source that carries indices, it raises. *)
Lemma noop_without_sites :
  fst (fst (SourceFilter.__call__ noop [7%nat] None world1))
  = MkGen [] (Some (Exn AttributeError
                      "'NoneType' object has no attribute 'filtered'"
                      ["SourceFilter.__call__"])).
Proof. vm_compute. reflexivity. Qed.

Lemma filter_by_affected_box_witness :
  (exists w1,
     fst (fst (SourceFilter.__call__ (filter3 "rtree") ([1%nat] ++ 0%nat :: [2%nat])
                 None world0))
     = gen_seq
         (fst (fst (SourceFilter.__call__ (filter3 "rtree") [1%nat] None world0)))
         (fst (fst (SourceFilter.__call__
                      (snd (SourceFilter.get_affected_box
                              (snd (fst (SourceFilter.__call__ (filter3 "rtree")
                                           [1%nat] None world0)))
                              far_source))
                      [2%nat] None w1)))) /\
  sublist (map fst (yielded (fst (fst
             (SourceFilter.__call__ (filter3 "no") [0; 1; 2]%nat None world0)))))
          [0; 1; 2]%nat.
Proof.
  destruct (filter_by_affected_box three_sites (SourceFilter.ADict degrees)
              "rtree" (filter3 "rtree")) as [Hbox Hsub].
  - reflexivity.
  - left. reflexivity.
  - split; [|apply Hsub].
    apply (Hbox [1%nat] 0%nat [2%nat] world0
             (fst (fst (SourceFilter.__call__ (filter3 "rtree") [1%nat] None world0)))
             (snd (fst (SourceFilter.__call__ (filter3 "rtree") [1%nat] None world0)))
             (snd (SourceFilter.__call__ (filter3 "rtree") [1%nat] None world0))
             far_source (49, 49, 51, 51)%Q).
    + destruct (SourceFilter.__call__ (filter3 "rtree") [1%nat] None world0)
        as [[g sf1] w1]. reflexivity.
    + vm_compute. reflexivity.
    + vm_compute. reflexivity.
    + reflexivity.
    + vm_compute. reflexivity.
    + apply Forall_forall. repeat constructor.
Defined.

(** On the example: the far source is dropped, the near one is yielded with
    the two sites around it, the wide one with the three sites. *)
Lemma filter3_example :
  fst (fst (SourceFilter.__call__ (filter3 "rtree") [0; 1; 2]%nat None world0))
  = MkGen [(1%nat, Some (SiteCollection.Make three_sites (Some [0; 1]%nat)));
           (2%nat, Some (SiteCollection.Make three_sites (Some [0; 1; 2]%nat)))]
          None /\
  fst (fst (SourceFilter.__call__ (filter3 "numpy") [0; 1; 2]%nat None world0))
  = fst (fst (SourceFilter.__call__ (filter3 "rtree") [0; 1; 2]%nat None world0)).
Proof. split; vm_compute; reflexivity. Qed.



(** ** Exceptions in the rupture pipeline *)

Section rupture_pipeline.
Context `{M : SourceMethods}.
Open Scope list_scope.

Lemma gen_seq_assoc {A} (g1 g2 g3 : gen A) :
  gen_seq (gen_seq g1 g2) g3 = gen_seq g1 (gen_seq g2 g3).
Proof.
  unfold gen_seq. destruct g1 as [y1 [e1|]], g2 as [y2 [e2|]]; cbn; try reflexivity.
  destruct g3 as [y3 e3]; cbn. now rewrite app_assoc.
Qed.

Lemma gen_seq_nil_l {A} (g : gen A) : gen_seq (MkGen [] None) g = g.
Proof. now destruct g. Qed.

(** The generator over a list of sources is the generator over its first
    part followed, if that was not stopped, by the one over the rest. *)
Lemma gen_ruptures_app (before after : list Source) site_coll maxdist :
  gen_ruptures (before ++ after) site_coll maxdist
  = gen_seq (gen_ruptures before site_coll maxdist)
            (gen_ruptures after site_coll maxdist).
Proof.
  induction before as [|src before IH]; cbn [app gen_ruptures].
  - now rewrite gen_seq_nil_l.
  - unfold with_monitor.
    destruct (filter_sites_by_distance_to_source src maxdist site_coll)
      as [[s_sites|]|e]; [|assumption|reflexivity].
    destruct (iter_ruptures src) as [[|rup rups]|e];
      [assumption | | reflexivity].
    now rewrite IH, gen_seq_assoc.
Qed.


End rupture_pipeline.



(** ** Hazard maps *)

Section hazard_maps.
Open Scope R_scope.
Open Scope list_scope.

Lemma mapM_ok {A B} (f : A -> result B) (g : A -> B) (l : list A) :
  (forall a, a ∈ l -> f a = Ok (g a)) -> mapM f l = Ok (map g l).
Proof.
  induction l as [|a l IH]; intros Hf; [reflexivity|].
  cbn [mapM map]. rewrite (Hf a) by constructor. cbn [bind].
  rewrite IH by (intros b Hb; apply Hf; now constructor).
  reflexivity.
Qed.


Lemma last_cutoff (curve : list R) :
  curve <> [] -> last (cutoff curve) = Some (greatest curve).
Proof.
  destruct curve as [|p curve]; [congruence|]. intros _.
  unfold cutoff, greatest. cbn [rev hd].
  rewrite map_app. cbn [map]. now rewrite last_snoc.
Qed.

Lemma length_cutoff (curve : list R) : length (cutoff curve) = length curve.
Proof. unfold cutoff. now rewrite length_map, length_rev. Qed.

(** With as many levels as probabilities, and at least one, the
    interpolation is defined. *)
Lemma np_interp_defined (v : R) (xp fp : list R) :
  length xp = length fp -> xp <> [] -> exists r, np_interp v xp fp = Ok r.
Proof.
  intros Hlen Hne. unfold np_interp. rewrite Hlen, Nat.eqb_refl. cbn [negb].
  destruct xp as [|a xp]; [congruence|].
  destruct fp as [|b fp]; [discriminate|]. cbn [combine].
  destruct (Rlt_dec v (fst (a, b))); eauto.
Qed.

Lemma hmap_value_level (curve imls : list R) (poe : R) :
  curve <> [] -> length curve = length imls ->
  hmap_value (map np_log (rev imls)) (cutoff curve) poe
  = Ok (level curve imls poe).
Proof.
  intros Hne Hlen. unfold hmap_value, level. rewrite last_cutoff by assumption.
  destruct (Rgt_dec poe (greatest curve)); [reflexivity|].
  unfold np_log, np_exp.
  destruct (np_interp_defined (ln poe) (map ln (cutoff curve)) (map ln (rev imls)))
    as [r Hr].
  - now rewrite !length_map, length_cutoff, length_rev.
  - destruct curve; [congruence|]. unfold cutoff. cbn [rev].
    rewrite !map_app. cbn [map]. intros E. now apply app_eq_nil in E as [_ E].
  - now rewrite Hr.
Qed.

Lemma maximum_ge (l : list R) (x : R) : x ∈ l -> x <= maximum l.
Proof.
  destruct l as [|a l]; [intros Hx; inversion Hx|]. cbn [maximum].
  revert a x. induction l as [|b l IH]; intros a x Hx.
  - apply list_elem_of_singleton in Hx as ->. cbn. lra.
  - cbn [fold_right].
    apply elem_of_cons in Hx as [->|Hx].
    + eapply Rle_trans; [|apply Rmax_r]. apply (IH a a). constructor.
    + apply elem_of_cons in Hx as [->|Hx].
      * apply Rmax_l.
      * eapply Rle_trans; [|apply Rmax_r]. apply (IH a x). now constructor.
Qed.








(** The comparison is with the first level, not with the maximum: on a curve
    that is not non-increasing a target below the maximum can map to 0. *)
Lemma unsorted_curve_example :
  ~ 0.3 > maximum (cutoff [0.1; 0.5]) /\
  compute_hazard_maps (Curve1D [0.1; 0.5]) [1; 2] (PoeScalar 0.3) = Ok [[0]].
Proof.
  assert (Hmax : Rmax 0.1 EPSILON = 0.1)
    by (apply Rmax_left; unfold EPSILON; lra).
  split.
  - pose proof (maximum_ge (cutoff [0.1; 0.5]) (Rmax 0.5 EPSILON)) as Hge.
    pose proof (Rmax_l 0.5 EPSILON).
    assert (Rmax 0.5 EPSILON <= maximum (cutoff [0.1; 0.5]))
      by (apply Hge; unfold cutoff; cbn; constructor).
    lra.
  - unfold compute_hazard_maps. cbn [as_2d as_1d mapM].
    rewrite hmap_value_level by (discriminate || reflexivity).
    cbn [bind]. do 3 f_equal.
    unfold level, greatest. cbn [hd]. rewrite Hmax.
    destruct (Rgt_dec 0.3 0.1) as [_|N]; [reflexivity | exfalso; lra].
Qed.

End hazard_maps.

(** * Further properties of the code *)

(** ** Lookups of the integration distance *)

Section distance_lookups.
Import IntegrationDistance.
Open Scope Q_scope.

Lemma getdefault_init_num (d : gmap string raw) trt v :
  getdefault d trt = Ok (RawNum v) ->
  getdefault (dic (__init__ d)) trt = Ok (VFloat v).
Proof.
  unfold getdefault. cbn [__init__ dic]. rewrite !lookup_fmap.
  destruct (d !! trt) as [r|]; cbn.
  - now intros [= ->].
  - destruct (d !! "default") as [r|]; cbn; [|discriminate].
    now intros [= ->].
Qed.

(** A scalar integration distance is returned whatever the magnitude, also
    when the magnitude is omitted, and whatever lookups came before; the
    entry of the tectonic region type is used, or the default one when the
    type has no entry. *)
Theorem scalar_distance_ignores_magnitude (d : gmap string raw) (o : t)
    (trt : string) (v : Q) (mag : option Q) :
  after_calls (__init__ d) o ->
  getdefault d trt = Ok (RawNum v) ->
  fst (__call__ o trt mag) = Ok v.
Proof.
  intros Hreach Hget.
  rewrite (after_calls_distance _ o trt mag Hreach (init_cache_ok d)).
  unfold distance. now rewrite (getdefault_init_num _ _ _ Hget).
Qed.

Lemma scalar_distance_ignores_magnitude_witness :
  fst (__call__ (snd (__call__ (__init__ degrees) "Volcanic" (Some 7)))
         "Stable Continental" None) = Ok 20.
Proof.
  apply (scalar_distance_ignores_magnitude degrees _ "Stable Continental" 20 None).
  - apply after_call, after_none.
  - reflexivity.
Defined.

(** For a list of control points, a lookup without magnitude returns the
    ceiling of 2000 km; the list is not read, it may even be empty. *)
Theorem no_magnitude_gives_ceiling (d : gmap string raw) (o : t)
    (trt : string) (pairs : list (Q * Q)) :
  after_calls (__init__ d) o ->
  getdefault d trt = Ok (RawList pairs) ->
  fst (__call__ o trt None) = Ok MAX_DISTANCE /\
  fst (__getitem__ o trt) = Ok MAX_DISTANCE.
Proof.
  intros Hreach Hget. unfold __getitem__.
  rewrite (after_calls_distance _ o trt None Hreach (init_cache_ok d)).
  unfold distance.
  destruct (getdefault_init _ _ _ Hget) as [-> _]. auto.
Qed.

Lemma no_magnitude_gives_ceiling_witness :
  fst (__call__ (__init__ {[ "default" := RawList [] ]}) "Volcanic" None)
  = Ok MAX_DISTANCE.
Proof.
  apply (no_magnitude_gives_ceiling {[ "default" := RawList [] ]} _ "Volcanic" []).
  - apply after_none.
  - reflexivity.
Defined.

(** The outcome of a lookup, value or exception, depends on the table, the
    tectonic region type and the magnitude only: two objects that have
    served different lookups since their construction from the same table
    answer alike.  The cache of interpolants is not observable. *)
Theorem lookup_ignores_history (d : gmap string raw) (o1 o2 : t)
    (trt : string) (mag : option Q) :
  after_calls (__init__ d) o1 ->
  after_calls (__init__ d) o2 ->
  fst (__call__ o1 trt mag) = fst (__call__ o2 trt mag).
Proof.
  intros H1 H2.
  rewrite (after_calls_distance _ o1 trt mag H1 (init_cache_ok d)).
  now rewrite (after_calls_distance _ o2 trt mag H2 (init_cache_ok d)).
Qed.

Lemma lookup_ignores_history_witness :
  fst (__call__ maxdist "Volcanic" (Some 6.5))
  = fst (__call__ (snd (__call__ maxdist "Volcanic" (Some 3))) "Volcanic"
           (Some 6.5)).
Proof.
  apply (lookup_ignores_history doc_table).
  - apply after_none.
  - apply after_call, after_none.
Defined.

(** Pickling keeps the table and drops the cache: the object rebuilt from
    the state of an object answers every lookup as that object does. *)
Theorem unpickled_answers_alike (d : gmap string raw) (o : t)
    (trt : string) (mag : option Q) :
  after_calls (__init__ d) o ->
  dic (unpickle (__getstate__ o)) = dic o /\
  piecewise (unpickle (__getstate__ o)) = None /\
  fst (__call__ (unpickle (__getstate__ o)) trt mag) = fst (__call__ o trt mag).
Proof.
  intros Hreach. split; [reflexivity|]. split; [reflexivity|].
  destruct (after_calls_inv _ _ Hreach (init_cache_ok d)) as (Hok & Hd & Hm).
  rewrite (call_distance o) by assumption.
  rewrite call_distance.
  - reflexivity.
  - intros trt' md. cbn. now rewrite lookup_empty.
Qed.

Lemma unpickled_answers_alike_witness :
  fst (__call__
         (unpickle (__getstate__ (snd (__call__ maxdist "Volcanic" (Some 3)))))
         "Volcanic" (Some 8.5))
  = fst (__call__ (snd (__call__ maxdist "Volcanic" (Some 3))) "Volcanic"
           (Some 8.5)).
Proof.
  apply (unpickled_answers_alike doc_table).
  apply after_call, after_none.
Defined.

(** The object is a mapping over the keys of its table: it has as many items
    as the table has entries, and reading the item of any of its keys
    succeeds, with the scalar of the entry or with 2000 for a list. *)
Theorem items_of_keys_are_defined (d : gmap string raw) (o : t) (trt : string) :
  after_calls (__init__ d) o ->
  trt ∈ dom (dic o) ->
  __len__ o = size d /\
  fst (__getitem__ o trt)
  = Ok (match d !! trt with
        | Some (RawNum v) => v
        | _ => MAX_DISTANCE
        end).
Proof.
  intros Hreach Hin.
  destruct (after_calls_inv _ _ Hreach (init_cache_ok d)) as (_ & Hd & _).
  split.
  - unfold __len__. rewrite Hd. cbn. apply map_size_fmap.
  - rewrite Hd in Hin. cbn in Hin. rewrite dom_fmap in Hin.
    apply elem_of_dom in Hin as [r Hr]. rewrite Hr.
    unfold __getitem__.
    rewrite (after_calls_distance _ o trt None Hreach (init_cache_ok d)).
    unfold distance, getdefault. cbn [__init__ dic].
    rewrite lookup_fmap, Hr. now destruct r.
Qed.

Lemma items_of_keys_are_defined_witness :
  __len__ (__init__ degrees) = size degrees /\
  fst (__getitem__ (__init__ degrees) "Stable Continental") = Ok 20.
Proof.
  apply (items_of_keys_are_defined degrees (__init__ degrees) "Stable Continental").
  - apply after_none.
  - vm_compute. reflexivity.
Defined.

End distance_lookups.

(** ** The piecewise function at and beyond its control points *)

Section piecewise_points.
Open Scope Q_scope.

(** In an ascending list the search for one of its elements stops at it. *)
Lemma searchsorted_nth xs i :
  ascending xs = true -> (i < length xs)%nat ->
  searchsorted xs (nth i xs 0) = i.
Proof.
  intros Hasc Hi.
  pose proof (searchsorted_le_length xs (nth i xs 0)) as Hle.
  destruct (lt_eq_lt_dec (searchsorted xs (nth i xs 0)) i) as [[Hlt|Heq]|Hgt].
  - exfalso.
    pose proof (searchsorted_at xs (nth i xs 0)) as Hat.
    assert (Hn : nth (searchsorted xs (nth i xs 0)) xs 0 < nth i xs 0)
      by (apply ascending_nth; [assumption | lia]).
    specialize (Hat ltac:(lia)). lra.
  - assumption.
  - exfalso.
    pose proof (searchsorted_before xs (nth i xs 0) i Hgt). lra.
Qed.

(** What the docstring of [Piecewise] promises, for at least two strictly
    ascending abscissas with one ordinate each: the function is built; at a
    control point it returns the corresponding ordinate; below the first
    abscissa it returns the first ordinate and above the last the last; and
    it returns nothing but ordinates. *)
Theorem piecewise_control_points (xs ys : list Q) :
  ascending xs = true -> (2 <= length xs)%nat -> length ys = length xs ->
  exists md,
    Piecewise.__init__ xs ys = Ok md /\
    (forall i, (i < length xs)%nat ->
       Piecewise.__call__ md (nth i xs 0) = Ok (nth i ys 0)) /\
    (forall v, v < nth 0 xs 0 -> Piecewise.__call__ md v = Ok (nth 0 ys 0)) /\
    (forall v, nth (length xs - 1) xs 0 < v ->
       Piecewise.__call__ md v = Ok (nth (length ys - 1) ys 0)) /\
    (forall v, exists y, Piecewise.__call__ md v = Ok y /\ y ∈ ys).
Proof.
  intros Hasc Hlen Hys.
  destruct (piecewise_lookup xs ys 0 Hasc Hlen Hys) as (md & Hinit & _).
  assert (Hcall : forall v,
            Piecewise.__call__ md v = Ok (nth (index_of xs v) ys 0)).
  { intros v. destruct (piecewise_lookup xs ys v Hasc Hlen Hys)
      as (md' & Hinit' & Hcall).
    rewrite Hinit in Hinit'. now injection Hinit' as <-. }
  exists md. split; [assumption|]. repeat split.
  - intros i Hi. rewrite Hcall. unfold index_of.
    rewrite searchsorted_nth by assumption. f_equal. f_equal. lia.
  - intros v Hv. rewrite Hcall. unfold index_of.
    rewrite searchsorted_below by assumption. now rewrite Nat.min_0_r.
  - intros v Hv. rewrite Hcall. unfold index_of.
    rewrite searchsorted_above by assumption.
    rewrite Nat.min_l by lia. now rewrite Hys.
  - intros v. eexists. split; [apply Hcall|].
    apply list_elem_of_In, nth_In. unfold index_of. lia.
Qed.

Lemma piecewise_control_points_witness :
  exists md,
    Piecewise.__init__ [3; 4; 5] [30; 40; 100] = Ok md /\
    (forall i, (i < 3)%nat ->
       Piecewise.__call__ md (nth i [3; 4; 5] 0) = Ok (nth i [30; 40; 100] 0)) /\
    (forall v, v < 3 -> Piecewise.__call__ md v = Ok 30) /\
    (forall v, 5 < v -> Piecewise.__call__ md v = Ok 100) /\
    (forall v, exists y, Piecewise.__call__ md v = Ok y /\ y ∈ [30; 40; 100]).
Proof.
  apply (piecewise_control_points [3; 4; 5] [30; 40; 100]).
  - reflexivity.
  - vm_compute. lia.
  - reflexivity.
Defined.

End piecewise_points.

(** ** More on the source filter *)

Section source_filter_more.
Context `{G : Geometry}.
Import SourceFilter.
Open Scope list_scope.







(** With the strategy ['no'] every source without cached indices is yielded
    with the sites as they are, in order; nothing is computed and nothing is
    written on the sources. *)
Theorem no_strategy_passes_through (sf : t) (sites : option SiteCollection.t)
    (sources : list nat) (w : world) :
  prefilter sf = "no" ->
  (forall a, a ∈ sources ->
     exists src, objects w !! a = Some src /\ indices src = None) ->
  __call__ sf sources sites w
  = (MkGen (map (fun a => (a, match sites with
                              | None => sitecol sf
                              | Some s => Some s
                              end)) sources) None,
     sf, w).
Proof.
  intros Hp Hall. unfold __call__.
  set (sites' := match sites with None => sitecol sf | Some s => Some s end).
  clearbody sites'.
  induction sources as [|a rest IH]; [reflexivity|].
  cbn [loop map].
  destruct (Hall a) as (src & Ha & Hix); [constructor|].
  rewrite (turn_no sf sites' a w src Ha Hix Hp).
  rewrite IH by (intros b Hb; apply Hall; now constructor).
  reflexivity.
Qed.

(** What the filter has yielded for the first sources of a sequence stands:
    the pairs yielded for a sequence begin with the pairs yielded for any
    initial part of it, whatever happens at the later sources. *)
Theorem earlier_pairs_stand (sf : t) (sites : option SiteCollection.t)
    (before after : list nat) (w : world) :
  yielded (fst (fst (__call__ sf before sites w)))
  `prefix_of` yielded (fst (fst (__call__ sf (before ++ after) sites w))).
Proof.
  unfold __call__. rewrite loop_app. unfold gen_seq.
  destruct (stopped (fst (fst (loop sf _ before w)))); [reflexivity|].
  cbn [yielded]. now apply prefix_app_r.
Qed.

End source_filter_more.

(** ** The filter that crosses a process boundary *)

Section transmitted_filter.
Context `{G : Geometry}.
Import SourceFilter.
Open Scope list_scope.





End transmitted_filter.

(** ** Asking again for the sites close to a source *)

Section close_sites.
Context `{G : Geometry}.
Import SourceFilter.
Open Scope list_scope.





End close_sites.


Lemma no_strategy_passes_through_witness :
  SourceFilter.__call__ (filter3 "no") [0; 1; 2]%nat None world0
  = (MkGen [(0%nat, Some sitecol3); (1%nat, Some sitecol3); (2%nat, Some sitecol3)]
           None,
     filter3 "no", world0).
Proof.
  apply (no_strategy_passes_through (filter3 "no") None [0; 1; 2]%nat world0).
  - reflexivity.
  - intros a Ha.
    apply elem_of_cons in Ha as [->|Ha]; [exists far_source; split; reflexivity|].
    apply elem_of_cons in Ha as [->|Ha]; [exists near_source; split; reflexivity|].
    apply list_elem_of_singleton in Ha as ->.
    exists wide_source; split; reflexivity.
Defined.




(** ** What the rupture pipeline yields *)

Section pipeline_yields.
Context `{M : SourceMethods}.
Open Scope list_scope.






Lemma gen_ruptures_of_far src s_sites maxdist rups :
  (forall rup, rup ∈ rups ->
     filter_sites_by_distance_to_rupture rup maxdist s_sites = Ok None) ->
  gen_ruptures_of src s_sites maxdist rups = MkGen [] None.
Proof.
  induction rups as [|rup rups IH]; intros Hfar; [reflexivity|].
  cbn [gen_ruptures_of]. unfold with_monitor. rewrite (Hfar rup) by constructor.
  apply IH. intros r Hr. apply Hfar. now constructor.
Qed.

(** A source that the source filter leaves no site, or that has no rupture,
    or all of whose ruptures are left no site, is skipped without an error:
    the generator does what it does on the sequence without that source. *)
Theorem skipped_source_leaves_no_trace (before after : list Source)
    (src : Source) (site_coll : SiteCollection.t) (maxdist : Q) :
  filter_sites_by_distance_to_source src maxdist site_coll = Ok None \/
  (exists s_sites rups,
     filter_sites_by_distance_to_source src maxdist site_coll = Ok (Some s_sites)
     /\ iter_ruptures src = Ok rups
     /\ forall rup, rup ∈ rups ->
          filter_sites_by_distance_to_rupture rup maxdist s_sites = Ok None) ->
  gen_ruptures (before ++ src :: after) site_coll maxdist
  = gen_ruptures (before ++ after) site_coll maxdist.
Proof.
  intros Hskip. rewrite !gen_ruptures_app. f_equal.
  cbn [gen_ruptures]. unfold with_monitor.
  destruct Hskip as [Hs|(s_sites & rups & Hs & Hr & Hfar)]; rewrite Hs;
    [reflexivity|].
  rewrite Hr. destruct rups as [|rup rups]; [reflexivity|].
  rewrite gen_ruptures_of_far by assumption.
  apply gen_seq_nil_l.
Qed.

(** The triples yielded for the first sources of a sequence stand whatever
    the later sources do: they begin what is yielded for the sequence. *)
Theorem earlier_triples_stand (before after : list Source)
    (site_coll : SiteCollection.t) (maxdist : Q) :
  yielded (gen_ruptures before site_coll maxdist)
  `prefix_of` yielded (gen_ruptures (before ++ after) site_coll maxdist).
Proof.
  rewrite gen_ruptures_app. unfold gen_seq.
  destruct (stopped (gen_ruptures before site_coll maxdist)); [reflexivity|].
  cbn [yielded]. now apply prefix_app_r.
Qed.

End pipeline_yields.



Lemma skipped_source_leaves_no_trace_witness :
  @gen_ruptures plane range_methods ([near_source] ++ far_source :: [wide_source])
    sitecol3 200
  = @gen_ruptures plane range_methods ([near_source] ++ [wide_source]) sitecol3 200.
Proof.
  apply (skipped_source_leaves_no_trace (M := range_methods)).
  left. reflexivity.
Defined.

(** ** Hazard curves are probabilities and decrease with the level *)

Section curve_shape.
Open Scope R_scope.
Open Scope list_scope.

Lemma haz_curve_ok gmvs imls invest_time duration :
  0 < duration ->
  _gmvs_to_haz_curve gmvs imls invest_time duration
  = Ok (map (fun iml =>
               1 - exp (- (invest_time / duration) * INR (num_ge gmvs iml)))
            imls).
Proof.
  intros Hd. unfold _gmvs_to_haz_curve.
  destruct (Req_dec_T duration 0) as [E|_]; [lra|].
  now rewrite sum_axis1_exceeding, map_map.
Qed.

Lemma rate_nonneg invest_time duration :
  0 < invest_time -> 0 < duration -> 0 < invest_time / duration.
Proof. intros Ht Hd. now apply Rdiv_lt_0_compat. Qed.

(** The probability grows with the count. *)
Lemma poe_of_count_mono rate (n m : nat) :
  0 < rate -> (n <= m)%nat ->
  1 - exp (- rate * INR n) <= 1 - exp (- rate * INR m).
Proof.
  intros Hr Hnm. apply le_INR in Hnm.
  assert (- rate * INR m <= - rate * INR n) by nra.
  assert (exp (- rate * INR m) <= exp (- rate * INR n)).
  { destruct (Rle_lt_or_eq_dec _ _ H) as [Hlt|Heq].
    - left. now apply exp_increasing.
    - right. now rewrite Heq. }
  lra.
Qed.

(** The count falls when the level rises. *)
Lemma num_ge_antitone gmvs (iml1 iml2 : R) :
  iml1 <= iml2 -> (num_ge gmvs iml2 <= num_ge gmvs iml1)%nat.
Proof.
  intros Hle. unfold num_ge. induction gmvs as [|g gmvs IH]; cbn; [lia|].
  destruct (Rge_dec g iml2), (Rge_dec g iml1); cbn; try lia.
  exfalso. lra.
Qed.



Lemma sorted_poes gmvs imls rate :
  0 < rate -> StronglySorted Rle imls ->
  StronglySorted Rge
    (map (fun iml => 1 - exp (- rate * INR (num_ge gmvs iml))) imls).
Proof.
  intros Hr Hsorted.
  induction Hsorted as [|iml imls Hs IH Hall]; cbn [map]; constructor.
  - exact IH.
  - apply Forall_forall. intros poe Hp.
    apply list_elem_of_fmap in Hp as (iml' & -> & Hin).
    rewrite Forall_forall in Hall. specialize (Hall iml' Hin).
    apply Rle_ge. apply poe_of_count_mono; [assumption|].
    now apply num_ge_antitone.
Qed.

(** For levels sorted ascending the curve is non-increasing: a higher level
    is never exceeded with a higher probability. *)
Theorem curve_decreases_with_level (gmvs imls : list R)
    (invest_time duration : R) :
  0 < invest_time -> 0 < duration ->
  StronglySorted Rle imls ->
  exists curve,
    _gmvs_to_haz_curve gmvs imls invest_time duration = Ok curve /\
    StronglySorted Rge curve.
Proof.
  intros Ht Hd Hsorted. pose proof (rate_nonneg _ _ Ht Hd) as Hr.
  eexists. split; [now apply haz_curve_ok|].
  now apply sorted_poes.
Qed.

Lemma curve_decreases_with_level_witness :
  exists curve,
    _gmvs_to_haz_curve [0.5; 0.2] [0.1; 0.3] 50 100 = Ok curve /\
    StronglySorted Rge curve.
Proof.
  apply (curve_decreases_with_level [0.5; 0.2] [0.1; 0.3] 50 100); try lra.
  repeat constructor. lra.
Defined.

(** One more ground-motion value, wherever it is put, lowers no value of the
    curve. *)
Theorem more_samples_raise_the_curve (gmvs1 gmvs2 imls : list R) (gmv : R)
    (invest_time duration : R) :
  0 < invest_time -> 0 < duration ->
  exists curve curve',
    _gmvs_to_haz_curve (gmvs1 ++ gmvs2) imls invest_time duration = Ok curve /\
    _gmvs_to_haz_curve (gmvs1 ++ gmv :: gmvs2) imls invest_time duration
    = Ok curve' /\
    Forall2 Rle curve curve'.
Proof.
  intros Ht Hd. pose proof (rate_nonneg _ _ Ht Hd) as Hr.
  do 2 eexists. split; [now apply haz_curve_ok|].
  split; [now apply haz_curve_ok|].
  induction imls as [|iml imls IH]; cbn [map]; constructor; [|exact IH].
  apply poe_of_count_mono; [assumption|].
  unfold num_ge. rewrite !List.filter_app, !length_app. cbn [List.filter].
  destruct (Rge_dec gmv iml); cbn [length]; lia.
Qed.

Lemma more_samples_raise_the_curve_witness :
  exists curve curve',
    _gmvs_to_haz_curve ([0.5] ++ [0.2]) [0.1; 0.3] 50 100 = Ok curve /\
    _gmvs_to_haz_curve ([0.5] ++ 0.4 :: [0.2]) [0.1; 0.3] 50 100 = Ok curve' /\
    Forall2 Rle curve curve'.
Proof.
  apply (more_samples_raise_the_curve [0.5] [0.2] [0.1; 0.3] 0.4 50 100); lra.
Defined.

End curve_shape.

(** ** The hazard map at the probabilities of the curve *)

Section map_knots.
Open Scope R_scope.
Open Scope list_scope.










End map_knots.

(** ** Edges of the hazard map, and maps of event-based curves *)

Section map_edges.
Open Scope R_scope.
Open Scope list_scope.

(** Where the arguments of [compute_hazard_maps] do not fit: without targets
    the result has one empty row per curve, whatever the curves and the
    levels; a curve without values raises [IndexError] at the first target;
    levels that are not as many as the values of the curve raise the
    [ValueError] of the interpolation, but only for a target that needs it:
    a target above the greatest probability of the curve maps to 0 without
    the levels being read. *)
Theorem hazard_map_edges (curves : list (list R)) (curve imls poes : list R)
    (poe : R) :
  compute_hazard_maps (Curves2D curves) imls (PoeArray [])
  = Ok (map (fun _ => []) curves)
  /\ compute_hazard_maps (Curve1D []) imls (PoeArray (poe :: poes))
     = Raise (Exn IndexError "list index out of range" ["compute_hazard_maps"])
  /\ (curve <> [] -> length curve <> length imls ->
      (~ poe > greatest curve ->
       compute_hazard_maps (Curve1D curve) imls (PoeScalar poe)
       = Raise (Exn ValueError "fp and xp are not of the same length."
                  ["numpy.interp"]))
      /\ (poe > greatest curve ->
          compute_hazard_maps (Curve1D curve) imls (PoeScalar poe) = Ok [[0]])).
Proof.
  split; [|split].
  - unfold compute_hazard_maps. cbn [as_2d as_1d].
    now apply mapM_ok.
  - reflexivity.
  - intros Hne Hlen.
    unfold compute_hazard_maps. cbn [as_2d as_1d mapM]. unfold hmap_value.
    rewrite last_cutoff by assumption.
    split; intros Hcmp.
    + destruct (Rgt_dec poe (greatest curve)); [contradiction|].
      unfold np_interp.
      rewrite !length_map, length_cutoff, length_rev.
      apply Nat.eqb_neq in Hlen. rewrite Hlen. reflexivity.
    + destruct (Rgt_dec poe (greatest curve)); [reflexivity | contradiction].
Qed.

Lemma hazard_map_edges_witness :
  compute_hazard_maps (Curve1D [0.9; 0.5]) [0.1; 0.2; 0.4] (PoeScalar 0.3)
  = Raise (Exn ValueError "fp and xp are not of the same length."
             ["numpy.interp"])
  /\ compute_hazard_maps (Curve1D [0.9; 0.5]) [0.1; 0.2; 0.4] (PoeScalar 0.95)
     = Ok [[0]].
Proof.
  assert (Hg : greatest [0.9; 0.5] = 0.9)
    by (unfold greatest; cbn [hd]; apply Rmax_left; unfold EPSILON; lra).
  destruct (hazard_map_edges [] [0.9; 0.5] [0.1; 0.2; 0.4] [] 0.3)
    as (_ & _ & Hlow).
  destruct (hazard_map_edges [] [0.9; 0.5] [0.1; 0.2; 0.4] [] 0.95)
    as (_ & _ & Hhigh).
  split.
  - apply Hlow; [discriminate | cbn; lia |]. rewrite Hg. lra.
  - apply Hhigh; [discriminate | cbn; lia |]. rewrite Hg. lra.
Defined.



End map_edges.

(** ** The limits of the event based calculator *)

Section overflow.
Import CheckOverflow.
Open Scope list_scope.

Lemma check_ok (order : list key) (num_ : key -> N) :
  check order num_ = Ok tt <-> forall k, k ∈ order -> (num_ k <= max_ k)%N.
Proof.
  induction order as [|var rest IH]; cbn [check].
  - split; [intros _ k Hk; inversion Hk | reflexivity].
  - destruct (max_ var <? num_ var)%N eqn:E.
    + apply N.ltb_lt in E. split; [discriminate|].
      intros Hall. specialize (Hall var ltac:(constructor)). lia.
    + apply N.ltb_ge in E. rewrite IH. split.
      * intros Hall k Hk. apply elem_of_cons in Hk as [->|Hk]; auto.
      * intros Hall k Hk. apply Hall. now constructor.
Qed.

Lemma check_raises (order : list key) (num_ : key -> N) (e : exn) :
  check order num_ = Raise e ->
  exists k, k ∈ order /\ (max_ k < num_ k)%N /\
    e = Exn ValueError
          ("The event based calculator is restricted to "
           ++ pretty (max_ k) ++ " " ++ name k ++ ", got " ++ pretty (num_ k))%string
          ["check_overflow"].
Proof.
  induction order as [|var rest IH]; cbn [check]; [discriminate|].
  destruct (max_ var <? num_ var)%N eqn:E.
  - apply N.ltb_lt in E. intros [= <-]. exists var.
    split; [constructor | split; [assumption | reflexivity]].
  - intros He. destruct (IH He) as (k & Hk & Hlt & Hmsg).
    exists k. split; [now constructor | auto].
Qed.

(** In whatever order the three limits are visited, [check_overflow] passes
    exactly when there are at most 65,536 sites, 4,294,967,296 events and 256
    measure types, the limits included; otherwise it raises a [ValueError]
    whose message gives a dimension that is over its limit, the limit and the
    number found. *)
Theorem check_overflow_limits (order : list key) (n_sites n_events n_imts : N) :
  Permutation order [Sites; Events; Imts] ->
  (check_overflow order n_sites n_events n_imts = Ok tt
   <-> (n_sites <= 65536 /\ n_events <= 4294967296 /\ n_imts <= 256)%N)
  /\ (forall e, check_overflow order n_sites n_events n_imts = Raise e ->
        exc_type e = ValueError /\
        ((65536 < n_sites)%N /\
         exc_msg e = ("The event based calculator is restricted to 65536 sites, got "
                      ++ pretty n_sites)%string
         \/ (4294967296 < n_events)%N /\
            exc_msg e = ("The event based calculator is restricted to 4294967296 events, got "
                         ++ pretty n_events)%string
         \/ (256 < n_imts)%N /\
            exc_msg e = ("The event based calculator is restricted to 256 imts, got "
                         ++ pretty n_imts)%string)).
Proof.
  intros Hperm. unfold check_overflow. split.
  - rewrite check_ok. split.
    + intros Hall.
      assert (Hin : forall k, k ∈ order)
        by (intros k; rewrite Hperm; destruct k; repeat constructor).
      pose proof (Hall Sites (Hin _)). pose proof (Hall Events (Hin _)).
      pose proof (Hall Imts (Hin _)). cbn in *. lia.
    + intros (Hs & He & Hi) k _. destruct k; cbn; lia.
  - intros e He. apply check_raises in He as (k & _ & Hlt & ->).
    split; [reflexivity|]. destruct k; cbn in Hlt |- *.
    + left. split; [lia | reflexivity].
    + right. left. split; [lia | reflexivity].
    + right. right. split; [lia | reflexivity].
Qed.

Lemma check_overflow_limits_witness :
  (check_overflow [Imts; Sites; Events] 65536 4294967296 256 = Ok tt
   <-> (65536 <= 65536 /\ 4294967296 <= 4294967296 /\ 256 <= 256)%N)
  /\ check_overflow [Sites; Events; Imts] 65537 10 3
     = Raise (Exn ValueError
                "The event based calculator is restricted to 65536 sites, got 65537"
                ["check_overflow"]).
Proof.
  split.
  - apply (check_overflow_limits [Imts; Sites; Events] 65536 4294967296 256).
    apply perm_trans with [Sites; Imts; Events];
      [apply perm_swap | apply perm_skip, perm_swap].
  - reflexivity.
Defined.

End overflow.

(** ** Saving ground-motion fields *)

Section gmf_coll.
Import GmfColl.
Open Scope list_scope.

Lemma save_lookup (data : gmap nat (list row)) (eid imti rlzi : nat)
    (pairs : list (Q * nat)) :
  let rows := map (fun gs => MkRow (snd gs) eid imti (fst gs)) pairs in
  let data' :=
    fold_left
      (fun data gs =>
         <[rlzi := default [] (data !! rlzi) ++ [MkRow (snd gs) eid imti (fst gs)]]>
           data)
      pairs data in
  (forall k, k <> rlzi -> data' !! k = data !! k) /\
  data' !! rlzi = match rows with
                  | [] => data !! rlzi
                  | _ => Some (default [] (data !! rlzi) ++ rows)
                  end.
Proof.
  revert data. induction pairs as [|gs pairs IH]; intros data; cbn zeta.
  - cbn. auto.
  - cbn [fold_left map].
    destruct (IH (<[rlzi := default [] (data !! rlzi)
                            ++ [MkRow (snd gs) eid imti (fst gs)]]> data))
      as [Hother Hsame].
    split.
    + intros k Hk. rewrite Hother by assumption.
      now rewrite lookup_insert_ne by congruence.
    + rewrite Hsame, lookup_insert_eq. cbn [default from_option].
      destruct (map _ pairs) as [|r rows]; [reflexivity|].
      unfold Datatypes.id. now rewrite <- app_assoc.
Qed.

(** [save] appends to the rows of the realization one row per pair of a
    value of the field with a site id, in order, as many as the shorter of
    the two arrays has entries, each with the event id and the measure type
    given; the rows saved before stay in front, and the rows of the other
    realizations are not touched.  With no pair the realization gets no
    entry at all. *)
Theorem save_appends_rows (data : gmap nat (list row)) (eid imti rlzi : nat)
    (gmf : list Q) (sids : list nat) :
  exists rows,
    rows = map (fun gs => MkRow (snd gs) eid imti (fst gs)) (combine gmf sids) /\
    length rows = Nat.min (length gmf) (length sids) /\
    (forall k, k <> rlzi ->
       save data eid imti rlzi gmf sids !! k = data !! k) /\
    save data eid imti rlzi gmf sids !! rlzi
    = match rows with
      | [] => data !! rlzi
      | _ => Some (default [] (data !! rlzi) ++ rows)
      end.
Proof.
  eexists. split; [reflexivity|]. split.
  - now rewrite length_map, length_combine.
  - apply (save_lookup data eid imti rlzi (combine gmf sids)).
Qed.

End gmf_coll.

(** ** Filling the minimum intensities *)

Section minimum_intensity.
Context `{F : Float32}.
Open Scope list_scope.

(** Writing in the dictionary the value that [getdefault] finds for a key
    changes what [getdefault] finds for no key. *)
Lemma getdefault_insert (d : gmap string Q) (imt : string) (v : Q) key :
  getdefault d imt = Ok v ->
  getdefault (<[imt := v]> d) key = getdefault d key.
Proof.
  intros Hv.
  assert (Hdef : imt = "default" -> d !! "default" = Some v).
  { intros ->. unfold getdefault in Hv.
    destruct (d !! "default"); [congruence | discriminate]. }
  unfold getdefault.
  destruct (decide (imt = key)) as [<-|Hne].
  - rewrite lookup_insert_eq. symmetry. exact Hv.
  - rewrite lookup_insert_ne by assumption.
    destruct (d !! key); [reflexivity|].
    destruct (decide (imt = "default")) as [E|E].
    + rewrite E, lookup_insert_eq. now rewrite (Hdef E).
    + now rewrite lookup_insert_ne.
Qed.

Lemma fill_minimum_ok (d0 d : gmap string Q) (imts : list string) :
  (forall key, getdefault d key = getdefault d0 key) ->
  (forall imt, imt ∈ imts -> exists v, getdefault d0 imt = Ok v) ->
  exists d',
    fill_minimum d imts = (Ok tt, d') /\
    (forall key, getdefault d' key = getdefault d0 key) /\
    (forall imt, imt ∈ imts -> exists v, d' !! imt = Some v) /\
    (forall key, key ∉ imts -> d' !! key = d !! key).
Proof.
  revert d. induction imts as [|imt rest IH]; intros d Hinv Hall.
  - exists d. repeat split; auto. intros imt Hin. inversion Hin.
  - cbn [fill_minimum].
    destruct (Hall imt) as [v Hv]; [constructor|].
    rewrite Hinv, Hv.
    destruct (IH (<[imt := v]> d)) as (d' & Hfill & Hinv' & Hin' & Hout').
    + intros key. rewrite getdefault_insert by (now rewrite Hinv). apply Hinv.
    + intros k Hk. apply Hall. now constructor.
    + exists d'. split; [assumption|]. split; [assumption|]. split.
      * intros k Hk. destruct (decide (k ∈ rest)) as [Hr|Hr]; [now apply Hin'|].
        apply elem_of_cons in Hk as [->|Hk]; [|contradiction].
        rewrite Hout' by assumption. rewrite lookup_insert_eq. eauto.
      * intros key Hkey. apply not_elem_of_cons in Hkey as [Hne Hkey].
        rewrite Hout' by assumption. now rewrite lookup_insert_ne.
Qed.

(** When the dictionary is not empty and every measure type has an entry or
    can fall back on ['default'], [fix_minimum_intensity] succeeds; the
    dictionary it leaves has no key ['default'], holds for every measure type
    the value that was found for it, and the entries of the other keys as
    they were; the array has one value per measure type, the rounding of the
    value the dictionary holds. *)
Theorem minimum_intensity_is_filled (min_iml : gmap string Q)
    (imts : list string) :
  min_iml <> ∅ ->
  "default" ∉ imts ->
  (forall imt, imt ∈ imts -> exists v, getdefault min_iml imt = Ok v) ->
  exists final,
    fix_minimum_intensity min_iml imts
    = (Ok (map (fun imt => F32 (default 0%Q (final !! imt))) imts), final) /\
    final !! "default" = None /\
    (forall imt, imt ∈ imts ->
       exists v, getdefault min_iml imt = Ok v /\ final !! imt = Some v) /\
    (forall key, key ∉ imts -> key <> "default" ->
       final !! key = min_iml !! key).
Proof.
  intros Hne Hdef Hall.
  destruct (fill_minimum_ok min_iml min_iml imts) as (d' & Hfill & Hinv & Hin & Hout);
    [reflexivity | assumption |].
  exists (delete "default" d'). unfold fix_minimum_intensity.
  rewrite bool_decide_eq_false_2 by assumption. rewrite Hfill.
  split; [reflexivity|]. split; [apply lookup_delete_eq|]. split.
  - intros imt Himt.
    assert (imt <> "default") by (intros ->; contradiction).
    rewrite lookup_delete_ne by congruence.
    destruct (Hin imt Himt) as [v Hv]. exists v. split; [|assumption].
    rewrite <- Hinv. unfold getdefault. now rewrite Hv.
  - intros key Hkey Hk. rewrite lookup_delete_ne by congruence.
    now apply Hout.
Qed.

Lemma fill_minimum_missing (d : gmap string Q) (present : list string)
    (imt : string) (rest : list string) :
  (forall k, k ∈ present -> is_Some (d !! k)) ->
  d !! imt = None -> d !! "default" = None ->
  fill_minimum d (present ++ imt :: rest)
  = (Raise (Exn ValueError
              ("The parameter `minimum_intensity` in the job.ini "
               ++ "file is missing the IMT '" ++ imt ++ "'")%string
              ["fix_minimum_intensity"]), d).
Proof.
  intros Hpresent Himt Hdef.
  induction present as [|k present IH]; cbn [app fill_minimum].
  - now rewrite getdefault_missing.
  - destruct (Hpresent k) as [v Hv]; [constructor|].
    rewrite (getdefault_hit _ _ _ Hv). rewrite insert_id by assumption.
    apply IH. intros k' Hk'. apply Hpresent. now constructor.
Qed.

(** An empty dictionary is not an error: the array is zero for every
    measure type.  A dictionary with entries but none for a measure type, and
    without ['default'], is one: a [ValueError] that names the first measure
    type that is missing, and the dictionary is left as it was. *)
Theorem minimum_intensity_missing (min_iml : gmap string Q)
    (present : list string) (imt : string) (rest : list string) :
  fix_minimum_intensity ∅ (present ++ imt :: rest)
  = (Ok (map (fun _ => F32 0%Q) (present ++ imt :: rest)), ∅)
  /\ (min_iml <> ∅ ->
      (forall k, k ∈ present -> is_Some (min_iml !! k)) ->
      min_iml !! imt = None -> min_iml !! "default" = None ->
      fix_minimum_intensity min_iml (present ++ imt :: rest)
      = (Raise (Exn ValueError
                  ("The parameter `minimum_intensity` in the job.ini "
                   ++ "file is missing the IMT '" ++ imt ++ "'")%string
                  ["fix_minimum_intensity"]), min_iml)).
Proof.
  split.
  - unfold fix_minimum_intensity.
    rewrite bool_decide_eq_true_2 by reflexivity. rewrite delete_empty.
    reflexivity.
  - intros Hne Hpresent Himt Hdef. unfold fix_minimum_intensity.
    rewrite bool_decide_eq_false_2 by assumption.
    now rewrite fill_minimum_missing.
Qed.

End minimum_intensity.

(** The example of the docstring, with the identity for the rounding. *)
Lemma minimum_intensity_is_filled_witness :
  exists final,
    fix_minimum_intensity (H := Build_Float32 (fun v => v))
      {[ "PGA" := 0.1%Q; "default" := 0.05%Q ]} ["PGA"; "PGV"]
    = (Ok (map (fun imt => default 0%Q (final !! imt)) ["PGA"; "PGV"]), final) /\
    final !! "default" = None /\
    (forall imt, imt ∈ ["PGA"; "PGV"] ->
       exists v, getdefault ({[ "PGA" := 0.1%Q; "default" := 0.05%Q ]}
                             : gmap string Q) imt = Ok v
                 /\ final !! imt = Some v) /\
    (forall key, key ∉ ["PGA"; "PGV"] -> key <> "default" ->
       final !! key
       = ({[ "PGA" := 0.1%Q; "default" := 0.05%Q ]} : gmap string Q) !! key).
Proof.
  apply (minimum_intensity_is_filled (F := Build_Float32 (fun v => v))
           {[ "PGA" := 0.1%Q; "default" := 0.05%Q ]} ["PGA"; "PGV"]).
  - intros E. apply (f_equal (fun m : gmap string Q => m !! "PGA")) in E.
    vm_compute in E. discriminate.
  - intros Hin. apply elem_of_cons in Hin as [E|Hin]; [discriminate|].
    apply list_elem_of_singleton in Hin. discriminate.
  - intros imt Hin. apply elem_of_cons in Hin as [->|Hin].
    + exists 0.1%Q. reflexivity.
    + apply list_elem_of_singleton in Hin as ->. exists 0.05%Q. reflexivity.
Defined.

Lemma minimum_intensity_missing_witness :
  fix_minimum_intensity (H := Build_Float32 (fun v => v))
    {[ "PGA" := 0.1%Q ]} (["PGA"] ++ "PGV" :: ["SA(0.5)"])
  = (Raise (Exn ValueError
              "The parameter `minimum_intensity` in the job.ini file is missing the IMT 'PGV'"
              ["fix_minimum_intensity"]),
     {[ "PGA" := 0.1%Q ]}).
Proof.
  apply (minimum_intensity_missing (F := Build_Float32 (fun v => v))
           {[ "PGA" := 0.1%Q ]} ["PGA"] "PGV" ["SA(0.5)"]).
  - intros E. apply (f_equal (fun m : gmap string Q => m !! "PGA")) in E.
    vm_compute in E. discriminate.
  - intros k Hk. apply list_elem_of_singleton in Hk as ->. eexists. reflexivity.
  - reflexivity.
  - reflexivity.
Defined.

(** ** The probability map of the ground-motion values *)

Section poe_map.
Open Scope R_scope.
Open Scope list_scope.




(** Without measure types nothing can be concatenated: with at least one
    site the call raises numpy's [ValueError], whatever the other
    arguments; with no site it returns the empty map. *)
Theorem poe_map_without_measure_types (gmvs_by_sid : gmap nat (list gmv_record))
    (invest_time duration : R) :
  gmvs_to_poe_map ∅ [] invest_time duration = Ok ∅
  /\ (gmvs_by_sid <> ∅ ->
      gmvs_to_poe_map gmvs_by_sid [] invest_time duration
      = Raise (Exn ValueError "need at least one array to concatenate"
                 ["numpy.concatenate"])).
Proof.
  split.
  - unfold gmvs_to_poe_map. now rewrite map_to_list_empty.
  - intros Hne. unfold gmvs_to_poe_map.
    destruct (map_to_list gmvs_by_sid) as [|[sid array] rest] eqn:E.
    + apply map_to_list_empty_iff in E. contradiction.
    + reflexivity.
Qed.


Lemma poe_map_without_measure_types_witness :
  gmvs_to_poe_map {[ 7%nat := [MkGmv 0 0.5] ]} [] 50 100
  = Raise (Exn ValueError "need at least one array to concatenate"
             ["numpy.concatenate"]).
Proof.
  apply (poe_map_without_measure_types {[ 7%nat := [MkGmv 0 0.5] ]} 50 100).
  intros E. apply (f_equal (fun m : gmap nat (list gmv_record) => m !! 7%nat)) in E.
  rewrite lookup_singleton_eq, lookup_empty in E. discriminate.
Defined.

End poe_map.

(** ** Bounding boxes around a point *)

Section bounding_box.
Context `{G : GeoUtils}.
Import IntegrationDistance.
Open Scope Q_scope.


Lemma py_min_mono (a a' b : Q) : a <= a' -> py_min a b <= py_min a' b.
Proof.
  intros Hle. unfold py_min.
  destruct (Qltb b a) eqn:E, (Qltb b a') eqn:E';
    try apply Qltb_lt in E; try apply Qltb_lt in E';
    try apply Qltb_ge in E; try apply Qltb_ge in E'; lra.
Qed.

Lemma py_max_ge (a b : Q) : a <= py_max a b /\ b <= py_max a b.
Proof.
  unfold py_max. destruct (Qltb a b) eqn:E.
  - apply Qltb_lt in E. lra.
  - apply Qltb_ge in E. lra.
Qed.

Lemma distance_ext (o1 o2 : t) trt mag :
  dic o1 = dic o2 -> magdist o1 = magdist o2 ->
  distance o1 trt mag = distance o2 trt mag.
Proof. intros Hd Hm. unfold distance. now rewrite Hd, Hm. Qed.

Lemma call_ext (o1 o2 : t) trt mag :
  cache_ok o1 -> cache_ok o2 -> dic o1 = dic o2 -> magdist o1 = magdist o2 ->
  fst (__call__ o1 trt mag) = fst (__call__ o2 trt mag).
Proof.
  intros H1 H2 Hd Hm. rewrite !call_distance by assumption.
  now apply distance_ext.
Qed.

Lemma max_distance_inv (o : t) keys mag best :
  cache_ok o ->
  cache_ok (snd (max_distance o keys mag best)) /\
  dic (snd (max_distance o keys mag best)) = dic o /\
  magdist (snd (max_distance o keys mag best)) = magdist o.
Proof.
  revert o best. induction keys as [|k keys IH]; intros o best Hok;
    cbn [max_distance].
  - cbn [snd]. auto.
  - pose proof (call_cache_ok o k mag Hok) as Hok'.
    destruct (call_unfold o k mag) as [Hd Hm].
    destruct (__call__ o k mag) as [[d|e] o']; cbn [snd] in *.
    + destruct (IH o' (Some match best with
                               | Some b => py_max b d
                               | None => d
                               end) Hok') as (? & ? & ?).
      split; [assumption | split; etransitivity; eassumption].
    + auto.
Qed.

Lemma max_distance_ext (o1 o2 : t) keys mag best :
  cache_ok o1 -> cache_ok o2 -> dic o1 = dic o2 -> magdist o1 = magdist o2 ->
  fst (max_distance o1 keys mag best) = fst (max_distance o2 keys mag best).
Proof.
  revert o1 o2 best. induction keys as [|k keys IH];
    intros o1 o2 best H1 H2 Hd Hm; cbn [max_distance]; [reflexivity|].
  pose proof (call_ext o1 o2 k mag H1 H2 Hd Hm) as Hfst.
  pose proof (call_cache_ok o1 k mag H1) as H1'.
  pose proof (call_cache_ok o2 k mag H2) as H2'.
  destruct (call_unfold o1 k mag) as [Hd1 Hm1].
  destruct (call_unfold o2 k mag) as [Hd2 Hm2].
  destruct (__call__ o1 k mag) as [r1 o1'], (__call__ o2 k mag) as [r2 o2'].
  cbn [fst snd] in *. subst r2.
  destruct r1 as [d|e]; [|reflexivity].
  apply IH; [assumption | assumption | congruence | congruence].
Qed.

Lemma max_distance_ok (o : t) keys mag best :
  cache_ok o ->
  (forall k, k ∈ keys -> exists d, distance o k mag = Ok d) ->
  keys <> [] \/ best <> None ->
  exists dmax,
    fst (max_distance o keys mag best) = Ok dmax /\
    (forall k d, k ∈ keys -> distance o k mag = Ok d -> d <= dmax) /\
    (forall b, best = Some b -> b <= dmax).
Proof.
  revert o best. induction keys as [|k keys IH]; intros o best Hok Hall Hne;
    cbn [max_distance].
  - destruct best as [b|]; [|destruct Hne; contradiction].
    exists b. cbn [fst]. split; [reflexivity|]. split.
    + intros k d Hk. inversion Hk.
    + intros b' [= <-]. lra.
  - destruct (Hall k) as [d Hd]; [constructor|].
    pose proof (call_distance o k mag Hok) as Hfst.
    pose proof (call_cache_ok o k mag Hok) as Hok'.
    destruct (call_unfold o k mag) as [Hdic Hmag].
    destruct (__call__ o k mag) as [r o']. cbn [fst snd] in *.
    rewrite Hd in Hfst. subst r.
    destruct (IH o' (Some match best with
                             | Some b => py_max b d
                             | None => d
                             end) Hok') as (dmax & Hmax & Hkeys & Hbest).
    + intros k' Hk'. rewrite (distance_ext o' o) by assumption.
      apply Hall. now constructor.
    + right. discriminate.
    + exists dmax. split; [assumption|]. split.
      * intros k' d' Hk' Hd'. apply elem_of_cons in Hk' as [->|Hk'].
        -- assert (d' = d) by congruence. subst d'.
           specialize (Hbest _ eq_refl).
           destruct best as [b|]; [|assumption].
           pose proof (py_max_ge b d). lra.
        -- apply (Hkeys k'); [assumption|].
           now rewrite (distance_ext o' o).
      * intros b ->. specialize (Hbest _ eq_refl).
        pose proof (py_max_ge b d). lra.
Qed.

Lemma bounding_box_inv (o : t) lon lat trt mag :
  cache_ok o ->
  cache_ok (snd (get_bounding_box o lon lat trt mag)) /\
  dic (snd (get_bounding_box o lon lat trt mag)) = dic o /\
  magdist (snd (get_bounding_box o lon lat trt mag)) = magdist o.
Proof.
  intros Hok. unfold get_bounding_box. destruct trt as [trt|].
  - pose proof (call_cache_ok o trt mag Hok).
    destruct (call_unfold o trt mag).
    destruct (__call__ o trt mag) as [r o']. cbn [snd] in *. auto.
  - pose proof (max_distance_inv o (map fst (map_to_list (dic o))) mag None Hok).
    destruct (max_distance o _ mag None) as [r o']. cbn [snd] in *. auto.
Qed.

Lemma bounding_box_ext (o1 o2 : t) lon lat trt mag :
  cache_ok o1 -> cache_ok o2 -> dic o1 = dic o2 -> magdist o1 = magdist o2 ->
  fst (get_bounding_box o1 lon lat trt mag)
  = fst (get_bounding_box o2 lon lat trt mag).
Proof.
  intros H1 H2 Hd Hm. unfold get_bounding_box. destruct trt as [trt|].
  - pose proof (call_ext o1 o2 trt mag H1 H2 Hd Hm) as Hfst.
    destruct (__call__ o1 trt mag) as [r1 o1'], (__call__ o2 trt mag) as [r2 o2'].
    cbn [fst] in *. now subst r2.
  - pose proof (max_distance_ext o1 o2 (map fst (map_to_list (dic o1))) mag None
                  H1 H2 Hd Hm) as Hfst.
    rewrite <- Hd.
    destruct (max_distance o1 _ mag None) as [r1 o1'],
             (max_distance o2 _ mag None) as [r2 o2'].
    cbn [fst] in *. now subst r2.
Qed.


(** Without a tectonic region type the box is built with the greatest
    distance of the table: when the conversion to degrees does not decrease
    with the distance, it contains the box of every region type of the
    table.  The lookups made before do not matter. *)
Theorem box_without_region_is_the_widest (d : gmap string raw) (o : t)
    (lon lat : Q) (trt : string) (mag : option Q) :
  0 <= KM_TO_DEGREES ->
  (forall d1 d2 lat, d1 <= d2 ->
     angular_distance d1 lat <= angular_distance d2 lat) ->
  after_calls (__init__ d) o ->
  (forall k, is_Some (dic o !! k) -> exists dist, distance o k mag = Ok dist) ->
  is_Some (dic o !! trt) ->
  exists x0 y0 x1 y1 u0 v0 u1 v1,
    fst (get_bounding_box o lon lat None mag) = Ok (x0, y0, x1, y1) /\
    fst (get_bounding_box o lon lat (Some trt) mag) = Ok (u0, v0, u1, v1) /\
    x0 <= u0 /\ y0 <= v0 /\ u1 <= x1 /\ v1 <= y1.
Proof.
  intros Hkm Hang Hreach Hall Htrt.
  destruct (after_calls_inv _ _ Hreach (init_cache_ok d)) as (Hok & _ & _).
  assert (Hkeys : forall k, k ∈ map fst (map_to_list (dic o)) ->
                            is_Some (dic o !! k)).
  { intros k Hk. apply list_elem_of_fmap in Hk as ([k' v] & -> & Hkv).
    apply elem_of_map_to_list in Hkv. cbn. eauto. }
  assert (Hin : trt ∈ map fst (map_to_list (dic o))).
  { destruct Htrt as [v Hv]. apply list_elem_of_fmap. exists (trt, v).
    split; [reflexivity|]. now apply elem_of_map_to_list. }
  destruct (max_distance_ok o (map fst (map_to_list (dic o))) mag None Hok)
    as (dmax & Hmax & Hbound & _).
  { intros k Hk. apply Hall. now apply Hkeys. }
  { left. intros E. rewrite E in Hin. inversion Hin. }
  destruct (Hall trt Htrt) as [dist Hdist].
  pose proof (Hbound trt dist Hin Hdist) as Hle.
  pose proof (call_distance o trt mag Hok) as Hcall. rewrite Hdist in Hcall.
  unfold get_bounding_box.
  destruct (max_distance o _ mag None) as [r1 o1].
  destruct (__call__ o trt mag) as [r2 o2].
  cbn [fst] in *. subst r1 r2. cbn [bind].
  do 8 eexists. split; [reflexivity|]. split; [reflexivity|].
  pose proof (py_min_mono (dist * KM_TO_DEGREES) (dmax * KM_TO_DEGREES) 90
                (Qmult_le_compat_r _ _ _ Hle Hkm)).
  pose proof (py_min_mono _ _ 180 (Hang dist dmax lat Hle)).
  repeat split; lra.
Qed.

(** An empty table has no greatest distance and no default: a bounding box
    without region type is a [ValueError] of [max], one with a region type
    the [KeyError] of the lookup; the object is left as it was. *)
Theorem empty_table_has_no_box (o : t) (lon lat : Q) (trt : string)
    (mag : option Q) :
  dic o = ∅ ->
  get_bounding_box o lon lat None mag
  = (Raise (Exn ValueError "max() arg is an empty sequence"
              ["IntegrationDistance.get_bounding_box"]), o) /\
  get_bounding_box o lon lat (Some trt) mag
  = (Raise (Exn KeyError "'default'" ["getdefault"]), o).
Proof.
  intros Hempty. unfold get_bounding_box, __call__. rewrite Hempty.
  rewrite map_to_list_empty. cbn [map max_distance bind].
  split; [reflexivity|].
  rewrite getdefault_missing by apply lookup_empty. reflexivity.
Qed.

End bounding_box.

Section boxes_of_sites.
Context `{G : GeoUtils}.
Import IntegrationDistance.

Lemma bounding_boxes_of_mapM (o o0 : t) (pts : list Site) trt mag :
  cache_ok o -> cache_ok o0 -> dic o = dic o0 -> magdist o = magdist o0 ->
  fst (SourceFilter.bounding_boxes_of (Some o) pts trt mag)
  = mapM (fun site => fst (get_bounding_box o0 (longitude site) (latitude site)
                             trt mag)) pts.
Proof.
  revert o. induction pts as [|site pts IH]; intros o Hok Hok0 Hd Hm;
    cbn [SourceFilter.bounding_boxes_of mapM]; [reflexivity|].
  pose proof (bounding_box_ext o o0 (longitude site) (latitude site) trt mag
                Hok Hok0 Hd Hm) as Hfst.
  destruct (bounding_box_inv o (longitude site) (latitude site) trt mag Hok)
    as (Hok' & Hd' & Hm').
  destruct (get_bounding_box o _ _ trt mag) as [r o']. cbn [fst snd] in *.
  rewrite <- Hfst. destruct r as [bb|e]; [|reflexivity].
  cbn [bind]. specialize (IH o' Hok' Hok0 ltac:(congruence) ltac:(congruence)).
  destruct (SourceFilter.bounding_boxes_of (Some o') pts trt mag) as [rs o''].
  cbn [fst] in *. now rewrite IH.
Qed.

(** The boxes of a filter are the boxes of its sites, in the order of the
    collection, each as a separate call on the integration distance would
    give it: what the lookups for the earlier sites leave in the cache does
    not change the later boxes, and the first site whose box fails ends the
    call with that exception.  A filter without sites raises a
    [TypeError]. *)
Theorem boxes_site_by_site (d : gmap string raw) (o : t)
    (sf : SourceFilter.t) (trt : option string) (mag : option Q) :
  SourceFilter.integration_distance sf = Some o ->
  after_calls (__init__ d) o ->
  fst (SourceFilter.get_bounding_boxes sf trt mag)
  = match SourceFilter.sitecol sf with
    | None => Raise (Exn TypeError "'NoneType' object is not iterable"
                       ["SourceFilter.get_bounding_boxes"])
    | Some sc =>
        mapM (fun site => fst (get_bounding_box o (longitude site)
                                 (latitude site) trt mag))
             (SiteCollection.sites sc)
    end.
Proof.
  intros Hdist Hreach.
  destruct (after_calls_inv _ _ Hreach (init_cache_ok d)) as (Hok & _ & _).
  unfold SourceFilter.get_bounding_boxes. rewrite Hdist.
  destruct (SourceFilter.sitecol sf) as [sc|]; [|reflexivity].
  pose proof (bounding_boxes_of_mapM o o (SiteCollection.sites sc) trt mag
                Hok Hok eq_refl eq_refl) as Hfst.
  destruct (SourceFilter.bounding_boxes_of (Some o) _ trt mag) as [r o'].
  exact Hfst.
Qed.

End boxes_of_sites.

Section boxes_examples.
Import IntegrationDistance.
Open Scope Q_scope.


Lemma box_without_region_is_the_widest_witness :
  exists x0 y0 x1 y1 u0 v0 u1 v1,
    fst (get_bounding_box (H := flat_degrees) (__init__ degrees) 10 20
           None None) = Ok (x0, y0, x1, y1) /\
    fst (get_bounding_box (H := flat_degrees) (__init__ degrees) 10 20
           (Some "default") None) = Ok (u0, v0, u1, v1) /\
    x0 <= u0 /\ y0 <= v0 /\ u1 <= x1 /\ v1 <= y1.
Proof.
  apply (box_without_region_is_the_widest (G := flat_degrees) degrees
           (__init__ degrees) 10 20 "default" None).
  - vm_compute. discriminate.
  - intros d1 d2 lat0 Hle. change (d1 * (9 / 1000) <= d2 * (9 / 1000)).
    apply Qmult_le_compat_r; [assumption | vm_compute; discriminate].
  - constructor.
  - intros k [v Hv]. unfold distance, getdefault. rewrite Hv.
    destruct v; cbn; eauto.
  - vm_compute. eauto.
Defined.

Lemma empty_table_has_no_box_witness :
  get_bounding_box (H := flat_degrees) (__init__ ∅) 10 20 None None
  = (Raise (Exn ValueError "max() arg is an empty sequence"
              ["IntegrationDistance.get_bounding_box"]), __init__ ∅) /\
  get_bounding_box (H := flat_degrees) (__init__ ∅) 10 20
    (Some "Active Shallow Crust") None
  = (Raise (Exn KeyError "'default'" ["getdefault"]), __init__ ∅).
Proof.
  apply (empty_table_has_no_box (G := flat_degrees) (__init__ ∅) 10 20
           "Active Shallow Crust" None).
  reflexivity.
Defined.

Lemma boxes_site_by_site_witness :
  fst (SourceFilter.get_bounding_boxes (H0 := flat_degrees) (filter3 "numpy")
         (Some "Stable Continental") None)
  = mapM (fun site => fst (get_bounding_box (H := flat_degrees) (__init__ degrees)
                             (longitude site) (latitude site)
                             (Some "Stable Continental") None))
         (SiteCollection.sites sitecol3).
Proof.
  apply (boxes_site_by_site (G := flat_degrees) degrees (__init__ degrees)
           (filter3 "numpy") (Some "Stable Continental") None).
  - reflexivity.
  - constructor.
Defined.

End boxes_examples.
